(** * searxstats.model: a shallow embedding and its verification

    The development follows [src/searxstats/model.py]:
    - Python values and dictionaries (insertion-ordered, string keys);
    - [SearxStatisticsResult], the aggregate store, with its methods;
    - [Fetcher], the probe adapter;
    - [create_fetch], the fetch-and-merge factory.

    The helpers imported from [searxstats.common] ([dict_update],
    [print_exception_wrapper], [create_task], [for_each]) are not part of
    the verified file; they are modelled from their documented contract and
    marked as such. *)

From Stdlib Require Import ZArith Permutation.
From stdpp Require Import base strings list gmap.

Set Default Proof Using "Type".
Open Scope string_scope.

(** ** Python values *)

(** The JSON-like values probes store in instance records.  A dictionary is
    an association list: Python dictionaries keep insertion order. *)
#[warnings="-register-all"]
Inductive value : Type :=
| VNone
| VBool (b : bool)
| VNum (z : Z)
| VStr (s : string)
| VList (l : list value)
| VDict (d : list (string * value)).

(** ** Python dictionaries with string keys *)

Module PyDict.
Section ops.
Context {V : Type}.

(** [d.get(k)]: the first binding of [k]. *)
Fixpoint get (k : string) (d : list (string * V)) : option V :=
  match d with
  | [] => None
  | (k', v) :: d' => if String.eqb k k' then Some v else get k d'
  end.

(** [k in d] *)
Definition contains (k : string) (d : list (string * V)) : bool :=
  match get k d with Some _ => true | None => false end.

(** [d[k] = v]: an existing key keeps its position, a new key goes last. *)
Fixpoint setitem (k : string) (v : V) (d : list (string * V))
  : list (string * V) :=
  match d with
  | [] => [(k, v)]
  | (k', v') :: d' =>
      if String.eqb k k' then (k', v) :: d' else (k', v') :: setitem k v d'
  end.

(** [d.update(other)]: shallow, key by key, in the order of [other]. *)
Fixpoint update (d other : list (string * V)) : list (string * V) :=
  match other with
  | [] => d
  | (k, v) :: other' => update (setitem k v d) other'
  end.

(** [d.keys()] and [d.items()] *)
Definition keys (d : list (string * V)) : list string := map fst d.
Definition items (d : list (string * V)) : list (string * V) := d.
End ops.
End PyDict.

#[warnings="-notation-for-abbreviation"]
Notation dict := (list (string * value)).

(** A Python [dict] never holds a key twice; the association lists that
    stand for dictionaries are the ones accepted by [wf_value]. *)
Fixpoint nodup_keys (ks : list string) : bool :=
  match ks with
  | [] => true
  | k :: ks' => negb (existsb (String.eqb k) ks') && nodup_keys ks'
  end.

Fixpoint wf_value (v : value) : bool :=
  match v with
  | VList l => forallb wf_value l
  | VDict d =>
      nodup_keys (map fst d)
      && (fix wf_items (d : dict) : bool :=
            match d with
            | [] => true
            | (_, x) :: d' => wf_value x && wf_items d'
            end) d
  | _ => true
  end.

Definition wf_dict (d : dict) : bool := wf_value (VDict d).

(** ** Exceptions and results *)

Inductive exn : Type :=
| KeyError (key : string)
| TypeError (msg : string)
| Exception (msg : string).

Inductive result (A : Type) : Type :=
| Ok (a : A)
| Raise (e : exn).
Arguments Ok {A} a.
Arguments Raise {A} e.

(** A computation over a mutable state [S] that may raise. *)
Definition M (S A : Type) : Type := S -> result A * S.

Definition ret {S A} (a : A) : M S A := fun s => (Ok a, s).
Definition raise {S A} (e : exn) : M S A := fun s => (Raise e, s).
Definition bind {S A B} (m : M S A) (k : A -> M S B) : M S B :=
  fun s =>
    match m s with
    | (Ok a, s') => k a s'
    | (Raise e, s') => (Raise e, s')
    end.

(** ** The aggregate store *)

Inductive AsnPrivacy : Type := BAD | UNKNOWN | GOOD.

Definition AsnPrivacy_value (a : AsnPrivacy) : Z :=
  match a with BAD => (-1)%Z | UNKNOWN => 0%Z | GOOD => 1%Z end.

Record SearxStatisticsResult : Type := {
  metadata : dict;
  instances : list (string * dict);
  engines : dict;
  categories : list value;
  hashes : list value;
  cidrs : dict;
  forks : list value;
  engine_errors : list value;
  private : bool
}.

(** [__init__]; [now] is the value of
    [calendar.timegm(datetime.datetime.now().utctimetuple())]. *)
Definition init (now : Z) (private : bool) : SearxStatisticsResult :=
  {| metadata := [("timestamp", VNum now); ("ips", VDict [])];
     instances := [];
     engines := [];
     engine_errors := [];
     categories := [];
     hashes := [];
     cidrs := [];
     forks := [VStr "https://github.com/searx/searx"];
     private := private |}.

Definition set_instances (s : SearxStatisticsResult)
    (i : list (string * dict)) : SearxStatisticsResult :=
  {| metadata := metadata s; instances := i; engines := engines s;
     categories := categories s; hashes := hashes s; cidrs := cidrs s;
     forks := forks s; engine_errors := engine_errors s;
     private := private s |}.

Definition set_private (s : SearxStatisticsResult) (b : bool)
  : SearxStatisticsResult :=
  {| metadata := metadata s; instances := instances s; engines := engines s;
     categories := categories s; hashes := hashes s; cidrs := cidrs s;
     forks := forks s; engine_errors := engine_errors s; private := b |}.

(** [x is not None] *)
Definition is_not_None (v : value) : bool :=
  match v with VNone => false | _ => true end.

(** [detail.get('version', None) is not None and 'error' not in detail] *)
Definition _is_valid_instance (detail : dict) : bool :=
  is_not_None (default VNone (PyDict.get "version" detail))
  && negb (PyDict.contains "error" detail).

(** The methods of the store are computations over [self]. *)
Definition method (A : Type) : Type := M SearxStatisticsResult A.

(** [self.instances[url]]: a missing key raises [KeyError]. *)
Definition get_instance (url : string) : method dict :=
  fun self =>
    match PyDict.get url (instances self) with
    | Some detail => (Ok detail, self)
    | None => (Raise (KeyError url), self)
    end.

(** [self.instances[url] = detail] *)
Definition create_instance (url : string) (detail : dict) : method unit :=
  fun self =>
    (Ok tt, set_instances self (PyDict.setitem url detail (instances self))).

(** [self.instances[url].update(detail)], or the assignment for a new URL.
    The store is taken as a value here: the record at [url] becomes its
    update.  (The code updates the record object in place; were that
    object stored under other URLs too, the change would show there as
    well.  The world of the probes, below, keeps track of the objects.) *)
Definition update_instance (url : string) (detail : dict) : method unit :=
  fun self =>
    match PyDict.get url (instances self) with
    | Some old =>
        (Ok tt, set_instances self
                  (PyDict.setitem url (PyDict.update old detail)
                     (instances self)))
    | None =>
        (Ok tt, set_instances self
                  (PyDict.setitem url detail (instances self)))
    end.

(** [write]: the dictionary [searx_json] handed to [json.dump], and the
    file system after the dump, a map from file names to the structure
    written. *)
Definition instances_value (i : list (string * dict)) : value :=
  VDict (map (fun ud => (fst ud, VDict (snd ud))) i).

Definition searx_json (self : SearxStatisticsResult) : dict :=
  [ ("metadata", VDict (metadata self));
    ("instances", instances_value (instances self));
    ("engines", VDict (engines self));
    ("engine_errors", VList (engine_errors self));
    ("categories", VList (categories self));
    ("hashes", VList (hashes self));
    ("cidrs", VDict (cidrs self));
    ("forks", VList (forks self)) ].

Definition write (self : SearxStatisticsResult) (output_file_name : string)
    (fs : gmap string dict) : gmap string dict :=
  <[output_file_name := searx_json self]> fs.

(** ** Iterating over the instances *)

Section iteration.
(** [NetworkType] and [get_network_type] come from [common.http]: an
    enumeration and a function of the URL alone. *)
Context {NetworkType : Type} `{EqDecision NetworkType}.
Variable get_network_type : string -> NetworkType.

(** What callers pass as [network_type]: the enumeration class itself
    (the default), one member, or a list of members. *)
Inductive network_type_arg : Type :=
| NetworkTypeClass
| NetworkTypeMember (t : NetworkType)
| NetworkTypeList (l : list NetworkType).

(** The collections [network_type] is bound to once the member case has
    been rewritten: the class or a list. *)
Inductive network_types : Type :=
| AllNetworkTypes
| NetworkTypes (l : list NetworkType).

(** [if isinstance(network_type, NetworkType): network_type = [network_type]];
    only a member is an instance of the enumeration. *)
Definition rebind_network_type (a : network_type_arg) : network_types :=
  match a with
  | NetworkTypeMember t => NetworkTypes [t]
  | NetworkTypeClass => AllNetworkTypes
  | NetworkTypeList l => NetworkTypes l
  end.

(** [t in network_type]: every member is in the enumeration class. *)
Definition network_type_in (t : NetworkType) (c : network_types) : bool :=
  match c with
  | AllNetworkTypes => true
  | NetworkTypes l => bool_decide (t ∈ l)
  end.

(** One turn of the loop body: [true] when the pair is yielded. *)
Definition yields (private only_valid valid_or_private : bool)
    (network_type : network_types) (instance : string) (detail : dict)
  : bool :=
  let is_valid := _is_valid_instance detail in
  if only_valid && negb is_valid then false
  else if valid_or_private && negb private && negb is_valid then false
  else if negb (network_type_in (get_network_type instance) network_type)
  then false
  else true.

Definition iter_instances (self : SearxStatisticsResult)
    (only_valid valid_or_private : bool) (network_type : network_type_arg)
  : list (string * dict) :=
  let network_type := rebind_network_type network_type in
  List.filter (fun ud => yields (private self) only_valid valid_or_private
                           network_type (fst ud) (snd ud))
    (PyDict.items (instances self)).
End iteration.

(** ** The world probes run in *)

(** One run has one aggregate store, shared by reference among all tasks,
    and a console on which caught exceptions are printed.  The records of
    the store are objects of their own: [iter_instances] hands them out
    and the probes change them in place.  The world keeps them in a heap,
    [objects], where the identity of a record is its index, and
    [instance_ids] is [self.instances] with every record named by its
    identity, so that one record may be stored under several URLs.
    [store_fields] holds the other fields of the store. *)
Record world : Type := {
  objects : list dict;
  instance_ids : list (string * nat);
  store_fields : SearxStatisticsResult;
  stdout : list exn
}.

Definition set_objects (w : world) (o : list dict) : world :=
  {| objects := o; instance_ids := instance_ids w;
     store_fields := store_fields w; stdout := stdout w |}.

Definition print_exception (e : exn) (w : world) : world :=
  {| objects := objects w; instance_ids := instance_ids w;
     store_fields := store_fields w; stdout := stdout w ++ [e] |}.

(** The contents of the record of identity [a]. *)
Definition deref (w : world) (a : nat) : dict := default [] (objects w !! a).

(** The store as the methods of [SearxStatisticsResult] see it: every URL
    with the current contents of its record. *)
Definition store (w : world) : SearxStatisticsResult :=
  set_instances (store_fields w)
    (map (fun ua => (fst ua, deref w (snd ua))) (instance_ids w)).

(** What a call passes: the reference to the store, or a plain value. *)
Inductive argument : Type :=
| ArgStore
| ArgValue (v : value).

(** Something awaited by the loop: a coroutine object, a task, a future. *)
Definition awaitable : Type := M world unit.

(** The objects found in a probe module's namespace, as far as [Fetcher]
    tells them apart: functions, [None], anything else. *)
Inductive pyobj : Type :=
| PyNone
| PyFunction (f : list argument -> awaitable)
| PyOther (v : value).

(** [func( *args )] *)
Definition call (func : pyobj) (args : list argument) : awaitable :=
  match func with
  | PyFunction f => f args
  | PyNone => raise (TypeError "'NoneType' object is not callable")
  | PyOther _ => raise (TypeError "object is not callable")
  end.

(** ** searxstats.common.utils *)

Module utils.

(** Modelled from the spec: the deep merge behind [dict_update], which
    lives in [common/utils.py].  Merging a fragment into an existing
    subtree goes key by key; anything that is not a pair of dictionaries
    is overwritten by the new value. *)
Fixpoint merge_value (new : value) (old : option value) : value :=
  match new, old with
  | VDict frag, Some (VDict d) =>
      VDict ((fix merge_items (frag d : dict) {struct frag} : dict :=
                match frag with
                | [] => d
                | (k, v) :: frag' =>
                    merge_items frag'
                      (PyDict.setitem k (merge_value v (PyDict.get k d)) d)
                end) frag d)
  | _, _ => new
  end.

(** The merge of the fragment [frag] into the dictionary [d]. *)
Definition dict_merge (d frag : dict) : dict :=
  match merge_value (VDict frag) (Some (VDict d)) with
  | VDict r => r
  | _ => d
  end.

(** The dictionary found under a key on the way to the target, a fresh one
    when there is none (as [setdefault(k, dict())]). *)
Definition subtree (old : option value) : dict :=
  match old with Some (VDict d) => d | _ => [] end.

(** The value at the end of [keys] after the merge, seen from [old]. *)
Fixpoint value_update (old : option value) (keys : list string) (v : value)
  : value :=
  match keys with
  | [] => merge_value v old
  | k :: keys' =>
      let d := subtree old in
      VDict (PyDict.setitem k (value_update (PyDict.get k d) keys' v) d)
  end.


(** Modelled from the spec: [dict_update(targetRecord, keyPath, value)] of
    [common/utils.py] merges [value] into [targetRecord] at the nested
    [keyPath]: existing subtrees are merged key by key, leaf values at the
    target path are overwritten. *)
Definition dict_update (dictionary : dict) (keys : list string) (v : value)
  : dict :=
  match value_update (Some (VDict dictionary)) keys v with
  | VDict d => d
  | _ => dictionary
  end.

(** Modelled from the spec: [print_exception_wrapper] of [common/utils.py]
    decorates a task body to catch, log and swallow exceptions, turning
    them into a non-fatal logged event. *)
Definition print_exception_wrapper (func : pyobj) : pyobj :=
  PyFunction (fun args w =>
    match call func args w with
    | (Ok _, w') => (Ok tt, w')
    | (Raise e, w') => (Ok tt, print_exception e w')
    end).

(** Modelled from the spec: [create_task] of [common/utils.py] returns a
    unit of concurrent work that runs the callable on the arguments.  It
    is not where exceptions are caught: [Fetcher] wraps [fetch], and only
    [fetch], in [print_exception_wrapper] before it makes the task. *)
Definition create_task {Loop Executor : Type} (loop : Loop)
    (executor : Executor) (callable : pyobj) (args : list argument)
  : awaitable :=
  call callable args.

End utils.

(** ** searxstats.common.foreach *)

Module foreach.
Section driver.
Context {A W : Type}.
Variable operation : A -> M W unit.
Variable log_failure : A -> exn -> W -> W.
Variable limit : nat.

(** Modelled from the spec: the state of [for_each] of
    [common/foreach.py], the bounded concurrency driver.  [queue] is what is
    left of the input sequence, [running] the invocations in flight,
    [started] the elements pulled so far in the order they were pulled,
    [finished] the completed invocations with their captured outcome. *)
Record state : Type := {
  queue : list A;
  running : list A;
  started : list A;
  finished : list (A * result unit);
  shared : W
}.

Definition initial (sequence : list A) (w : W) : state :=
  {| queue := sequence; running := []; started := []; finished := [];
     shared := w |}.

(** What the scheduler may do next: let the driver pull the next element
    and start its invocation, or let the invocation in some slot complete. *)
Inductive event : Type :=
| Start
| Finish (slot : nat).

(** Modelled from the spec: the world once the invocation on [x] has
    returned.  A failure is captured and logged with its context, the
    element; it goes no further. *)
Definition settle (x : A) (rw : result unit * W) : W :=
  match rw with
  | (Ok _, w) => w
  | (Raise e, w) => log_failure x e w
  end.

(** Modelled from the spec: one step of the driver.  A new invocation
    starts only while fewer than [limit] are in flight; a failing
    invocation is captured in [finished], logged, and stops nothing. *)
Definition step (e : event) (st : state) : option state :=
  match e with
  | Start =>
      match queue st with
      | x :: q =>
          if Nat.ltb (length (running st)) limit
          then Some {| queue := q; running := running st ++ [x];
                       started := started st ++ [x];
                       finished := finished st; shared := shared st |}
          else None
      | [] => None
      end
  | Finish slot =>
      match running st !! slot with
      | Some x =>
          let (r, w') := operation x (shared st) in
          Some {| queue := queue st; running := delete slot (running st);
                  started := started st;
                  finished := finished st ++ [(x, r)];
                  shared := settle x (r, w') |}
      | None => None
      end
  end.

(** A schedule is run event by event; an event that is not enabled stops
    the run with [None]. *)
Fixpoint run (schedule : list event) (st : state) : option state :=
  match schedule with
  | [] => Some st
  | e :: schedule' =>
      match step e st with
      | Some st' => run schedule' st'
      | None => None
      end
  end.

(** The driver returns once the sequence is exhausted and nothing is in
    flight. *)
Definition completed (st : state) : bool :=
  match queue st, running st with
  | [], [] => true
  | _, _ => false
  end.

(** The driver under a scheduling policy: [pick] names the slot that
    completes next whenever no new invocation can start. *)
Definition next (pick : state -> nat) (st : state) : option event :=
  match queue st, running st with
  | [], [] => None
  | _ :: _, [] => Some Start
  | [], _ :: _ => Some (Finish (pick st mod length (running st)))
  | _ :: _, _ :: _ =>
      if Nat.ltb (length (running st)) limit then Some Start
      else Some (Finish (pick st mod length (running st)))
  end.

Fixpoint drive (pick : state -> nat) (fuel : nat) (st : state) : state :=
  match fuel with
  | 0 => st
  | S fuel' =>
      match next pick st with
      | Some e =>
          match step e st with
          | Some st' => drive pick fuel' st'
          | None => st
          end
      | None => st
      end
  end.

(** Modelled from the spec: [for_each(sequence, operation, limit=limit)].
    Each element costs two events, its start and its completion. *)
Definition for_each (pick : state -> nat) (sequence : list A) (w : W)
  : state :=
  drive pick (2 * length sequence) (initial sequence w).

(** The invocations of [operation] on the elements of [xs], one after the
    other from the world [w]: the outcomes in that order, and the world
    they leave. *)
Fixpoint replay (xs : list A) (w : W) : list (A * result unit) * W :=
  match xs with
  | [] => ([], w)
  | x :: xs' =>
      let (r, w') := operation x w in
      let (outcomes, w'') := replay xs' (settle x (r, w')) in
      ((x, r) :: outcomes, w'')
  end.
End driver.
End foreach.

(** ** The probe adapter *)

Record module : Type := {
  module_name : string;
  namespace : gmap string pyobj
}.

Record Fetcher : Type := {
  fetch_module : module;
  name : string;
  help_message : string;
  group_name : option string;
  mandatory : bool
}.

(** [hasattr], [getattr] and [inspect.isfunction] on the probe module. *)
Definition get_function (self : Fetcher) (name : string) : pyobj :=
  match namespace (fetch_module self) !! name with
  | Some (PyFunction f) => PyFunction f
  | _ => PyNone
  end.

(** [async def dummy(): pass] *)
Definition dummy : awaitable := ret tt.

Section fetcher.
Context {Loop Executor : Type}.
(** The two helpers of [common.utils] the adapter goes through. *)
Variable print_exception_wrapper : pyobj -> pyobj.
Variable create_task : Loop -> Executor -> pyobj -> list argument -> awaitable.

Definition create_fetch_task (self : Fetcher) (loop : Loop)
    (executor : Executor) (searx_stats_result : argument) : awaitable :=
  let fetch := get_function self "fetch" in
  let safe_fetch := print_exception_wrapper fetch in
  create_task loop executor safe_fetch [searx_stats_result].

Definition create_initialize_task (self : Fetcher) (loop : Loop)
    (executor : Executor) : awaitable :=
  let initialize := get_function self "initialize" in
  match initialize with
  | PyNone => dummy
  | _ => create_task loop executor initialize []
  end.
End fetcher.

(** Modelled from the spec: the orchestrator awaits the fetch task of each
    registered probe in turn; an exception leaving a task ends the run. *)
Fixpoint run_tasks (tasks : list awaitable) : awaitable :=
  match tasks with
  | [] => ret tt
  | t :: tasks' => bind t (fun _ => run_tasks tasks')
  end.

(** ** The fetch-and-merge factory *)

Section factory.
Context {NetworkType : Type} `{EqDecision NetworkType}.
Variable get_network_type : string -> NetworkType.

(** The raw per-instance function of a probe: what it computes for a URL,
    and whether it was defined with [async def]. *)
Record raw_fetch : Type := {
  fetch_one : string -> M world value;
  iscoroutinefunction : bool
}.

Variable keys : list string.
Variable probe : raw_fetch.
Variables only_valid valid_or_private : bool.
Variable network_type : @network_type_arg NetworkType.
Variable limit : nat.

(** [dict_update(detail, keys, result)]: [detail] is a record object, and
    the merge changes that object in place, whatever URLs it is stored
    under. *)
Definition dict_update_in_place (detail : nat) (result : value)
  : M world unit :=
  fun w =>
    (Ok tt,
     set_objects w
       (alter (fun d => utils.dict_update d keys result) detail
          (objects w))).

(** The closures get the URL and the record object. *)
Definition fetch_and_set_async (ud : string * nat) : M world unit :=
  bind (fetch_one probe (fst ud)) (dict_update_in_place (snd ud)).

Definition fetch_and_set_function (ud : string * nat) : M world unit :=
  bind (fetch_one probe (fst ud)) (dict_update_in_place (snd ud)).

(** [searx_stats_result.iter_instances(...)] as [fetch] uses it: the pairs
    of [iter_instances], each record given by its identity. *)
Definition iter_objects (w : world) : list (string * nat) :=
  List.filter
    (fun ua => yields get_network_type (private (store_fields w)) only_valid
                 valid_or_private (rebind_network_type network_type)
                 (fst ua) (deref w (snd ua)))
    (instance_ids w).

(** Modelled from the spec: a failure of a per-instance invocation is
    logged on the console. *)
Definition log_instance_failure (ud : string * nat) (e : exn) (w : world)
  : world :=
  print_exception e w.

(** The state of the driver when [fetch] hands it the instance iterator. *)
Definition fetch_pass (w : world)
  : @foreach.state (string * nat) world :=
  foreach.initial (iter_objects w) w.

(** [fetch(searx_stats_result)], the result of [create_fetch]. *)
Definition fetch (pick : @foreach.state (string * nat) world -> nat)
  : awaitable :=
  fun w =>
    let fetch_and_set :=
      if iscoroutinefunction probe then fetch_and_set_async
      else fetch_and_set_function in
    let instance_iterator := iter_objects w in
    (Ok tt,
     foreach.shared
       (foreach.for_each fetch_and_set log_instance_failure limit pick
          instance_iterator w)).
End factory.

(** ** What is observed of a pass *)

(** What every state of a pass over [sequence] satisfies: at most [limit]
    invocations in flight, the elements pulled in order, every pulled
    element in flight or finished. *)
Definition pass_invariant {A W : Type} (limit : nat) (sequence : list A)
    (st : @foreach.state A W) : Prop :=
  length (foreach.running st) <= limit
  /\ (foreach.started st ++ foreach.queue st)%list = sequence
  /\ Permutation (foreach.started st)
       (map fst (foreach.finished st) ++ foreach.running st).

(** The events still to come: two for an element of the queue, one for an
    invocation in flight. *)
Definition remaining {A W : Type} (st : @foreach.state A W) : nat :=
  2 * length (foreach.queue st) + length (foreach.running st).

(** What a pass makes of a record, given the outcome of the probe
    function for its URL: the merge of the result, or the record as it was
    when the probe function raised. *)
Definition merged_record (keys : list string) (outcome : result value)
    (old : dict) : dict :=
  match outcome with
  | Ok r => utils.dict_update old keys r
  | Raise _ => old
  end.

(** The exception of a failed outcome, if it is one. *)
Definition failure {X : Type} (outcome : result X) : list exn :=
  match outcome with
  | Ok _ => []
  | Raise e => [e]
  end.

(** A world for a store in which every record is an object of its own. *)
Definition world_of_store (s : SearxStatisticsResult) : world :=
  {| objects := map snd (instances s);
     instance_ids := imap (fun i ud => (fst ud, i)) (instances s);
     store_fields := s;
     stdout := [] |}.

(** ** Sample data *)

(** A two-valued classification of URLs, for the examples. *)
Inductive sample_network : Type := NORMAL | TOR.

#[global] Instance sample_network_eq_dec : EqDecision sample_network.
Proof. solve_decision. Defined.

Definition sample_get_network_type (url : string) : sample_network :=
  if String.eqb url "http://d.onion" then TOR else NORMAL.

(** A probe module without any entry point, and one whose [fetch] raises. *)
Definition empty_module : module :=
  {| module_name := "searxstats.fetcher.empty"; namespace := ∅ |}.

Definition failing_fetch : list argument -> awaitable :=
  fun _ => raise (Exception "boom").

Definition failing_module : module :=
  {| module_name := "searxstats.fetcher.failing";
     namespace := {[ "fetch" := PyFunction failing_fetch ]} |}.

Definition sample_fetcher (m : module) : Fetcher :=
  {| fetch_module := m; name := "sample"; help_message := "a sample probe";
     group_name := None; mandatory := false |}.

(** A raw fetch function that fails on one URL and reports a status code
    for the others. *)
Definition sample_probe : raw_fetch :=
  {| fetch_one := fun url =>
       if String.eqb url "https://b.example"
       then raise (Exception "connection refused")
       else ret (VDict [("status_code", VNum 200)]);
     iscoroutinefunction := true |}.



(** The three records of the specification's examples: a valid one, an
    invalid one and a pending one. *)
Definition valid_record : dict := [("version", VStr "1.0")].
Definition invalid_record : dict := [("error", VStr "timeout")].
Definition pending_record : dict := [].

Definition sample_instances (u1 u2 u3 : string) : list (string * dict) :=
  [(u1, valid_record); (u2, invalid_record); (u3, pending_record)].

Definition sample_store (private : bool) : SearxStatisticsResult :=
  set_instances (init 0 private)
    (sample_instances "https://a.example" "https://b.example"
       "https://c.example").

(** A record whose [version] key is bound to [None]. *)
Definition null_version_record : dict :=
  [("version", VNone); ("http", VDict [("status_code", VNum 200)])].

(** A probe module with both entry points, each raising when called, and
    one whose entry points are bound to constants. *)
Definition raising_module : module :=
  {| module_name := "searxstats.fetcher.raising";
     namespace := {[ "initialize" := PyFunction failing_fetch;
                     "fetch" := PyFunction failing_fetch ]} |}.

Definition constant_module : module :=
  {| module_name := "searxstats.fetcher.constant";
     namespace := {[ "initialize" := PyOther (VNum 1);
                     "fetch" := PyOther (VStr "fetch") ]} |}.

(** The outcome of [sample_probe] for a URL. *)
Definition sample_outcome (url : string) : result value :=
  if String.eqb url "https://b.example"
  then Raise (Exception "connection refused")
  else Ok (VDict [("status_code", VNum 200)]).

(** An update that reports an error, and one that reports a version. *)
Definition error_update : dict := [("error", VNone); ("http", VDict [])].
Definition version_update : dict := [("version", VStr "1.1")].


(** * Facts *)

(** ** Dictionaries *)

Section PyDict_facts.
Context {V : Type}.
Implicit Types (d : list (string * V)) (k : string) (v : V).

Lemma get_setitem_eq k v d : PyDict.get k (PyDict.setitem k v d) = Some v.
Proof.
  induction d as [|[k' v'] d IH]; simpl.
  - by rewrite String.eqb_refl.
  - destruct (String.eqb_spec k k') as [->|Hne]; simpl.
    + by rewrite String.eqb_refl.
    + by apply String.eqb_neq in Hne as ->.
Qed.

Lemma get_setitem_ne k k' v d :
  k <> k' -> PyDict.get k' (PyDict.setitem k v d) = PyDict.get k' d.
Proof.
  intros Hne. assert (String.eqb k' k = false) as Hf.
  { apply String.eqb_neq. congruence. }
  induction d as [|[k0 v0] d IH]; simpl.
  - by rewrite Hf.
  - destruct (String.eqb_spec k k0) as [<-|Hk]; simpl.
    + by rewrite Hf.
    + by rewrite IH.
Qed.

Lemma setitem_same k v d :
  PyDict.get k d = Some v -> PyDict.setitem k v d = d.
Proof.
  induction d as [|[k' v'] d IH]; simpl; [done|].
  destruct (String.eqb_spec k k') as [->|Hk].
  - by intros [= ->].
  - intros Hg. by rewrite IH.
Qed.

Lemma setitem_setitem k v v' d :
  PyDict.setitem k v (PyDict.setitem k v' d) = PyDict.setitem k v d.
Proof.
  induction d as [|[k0 v0] d IH]; simpl.
  - by rewrite String.eqb_refl.
  - destruct (String.eqb_spec k k0) as [->|Hk]; simpl.
    + by rewrite String.eqb_refl.
    + apply String.eqb_neq in Hk as ->. by rewrite IH.
Qed.

Lemma get_Some_keys k d : In k (PyDict.keys d) <-> is_Some (PyDict.get k d).
Proof.
  induction d as [|[k' v'] d IH]; simpl.
  - split; [done|]. by intros [? ?].
  - destruct (String.eqb_spec k k') as [->|Hk].
    + split; eauto.
    + rewrite <- IH. split; [|tauto]. intros [?|?]; [congruence|done].
Qed.

Lemma get_None_keys k d : ~ In k (PyDict.keys d) <-> PyDict.get k d = None.
Proof.
  rewrite get_Some_keys, eq_None_not_Some. tauto.
Qed.

Lemma contains_keys k d : PyDict.contains k d = true <-> In k (PyDict.keys d).
Proof.
  rewrite get_Some_keys. unfold PyDict.contains.
  destruct (PyDict.get k d); split; eauto; try done.
Qed.
End PyDict_facts.

(** ** Validity of a record *)

Lemma is_valid_instance_spec detail :
  _is_valid_instance detail = true <->
  (exists v, PyDict.get "version" detail = Some v /\ v <> VNone)
  /\ PyDict.get "error" detail = None.
Proof.
  unfold _is_valid_instance, PyDict.contains.
  rewrite andb_true_iff, negb_true_iff. split.
  - intros [Hv He]. split.
    + destruct (PyDict.get "version" detail) as [v|]; [|done].
      exists v. split; [done|]. by intros ->.
    + by destruct (PyDict.get "error" detail).
  - intros [(v & -> & Hv) ->]. split; [|done]. by destruct v.
Qed.

(** ** Iteration *)

Section iteration_facts.
Context {NetworkType : Type} `{EqDecision NetworkType}.
Variable get_network_type : string -> NetworkType.
Implicit Types (self : SearxStatisticsResult) (detail : dict).
Implicit Types (network_type : @network_type_arg NetworkType).

Lemma iter_instances_In self only_valid valid_or_private network_type u detail :
  In (u, detail) (iter_instances get_network_type self only_valid valid_or_private network_type) <->
  In (u, detail) (instances self)
  /\ yields get_network_type (private self) only_valid valid_or_private
       (rebind_network_type network_type) u detail = true.
Proof. unfold iter_instances, PyDict.items. by rewrite filter_In. Qed.

Lemma yields_only_valid private valid_or_private c u detail :
  yields get_network_type private true valid_or_private c u detail = true ->
  _is_valid_instance detail = true.
Proof. unfold yields. by destruct (_is_valid_instance detail). Qed.

Lemma yields_not_private only_valid c u detail :
  yields get_network_type false only_valid true c u detail = true ->
  _is_valid_instance detail = true.
Proof.
  unfold yields. destruct (_is_valid_instance detail); [done|].
  by destruct only_valid.
Qed.

(** C3: over the instances [{u1: {version: "1.0"}, u2: {error: "timeout"},
    u3: {}}], [iter_instances] with [only_valid=True] yields exactly the
    pair of [u1] and its record; and whatever the store, a record yielded
    with [only_valid=True] has a [version] that is not [None] and no
    [error] key. *)
Theorem iter_instances_only_valid :
  (forall self u1 u2 u3 valid_or_private,
     instances self = sample_instances u1 u2 u3 ->
     iter_instances get_network_type self true valid_or_private
       NetworkTypeClass = [(u1, valid_record)])
  /\ (forall self valid_or_private network_type u detail,
        In (u, detail) (iter_instances get_network_type self true valid_or_private network_type) ->
        (exists v, PyDict.get "version" detail = Some v /\ v <> VNone)
        /\ PyDict.contains "error" detail = false).
Proof.
  split.
  - intros self u1 u2 u3 vp Hi. unfold iter_instances. rewrite Hi.
    by destruct vp, (private self).
  - intros self vp nt u detail [_ Hy]%iter_instances_In.
    apply yields_only_valid, is_valid_instance_spec in Hy as [Hv He].
    split; [done|]. unfold PyDict.contains. by rewrite He.
Qed.

Lemma iter_instances_private self network_type :
  private self = true ->
  iter_instances get_network_type self false true network_type
  = iter_instances get_network_type self false false network_type.
Proof. unfold iter_instances, yields. by intros ->. Qed.

(** C4: over [{u1: valid, u2: invalid, u3: pending}], [iter_instances]
    with [only_valid=False] and [valid_or_private=True] yields [u1] alone
    when the store is not private, and [u1], [u2], [u3] in insertion order
    when it is; on a private store [valid_or_private] filters nothing. *)
Theorem iter_instances_valid_or_private :
  (forall self u1 u2 u3,
     instances self = sample_instances u1 u2 u3 ->
     (private self = false ->
      iter_instances get_network_type self false true NetworkTypeClass
      = [(u1, valid_record)])
     /\ (private self = true ->
         iter_instances get_network_type self false true NetworkTypeClass
         = [(u1, valid_record); (u2, invalid_record); (u3, pending_record)]))
  /\ (forall self network_type,
        private self = true ->
        iter_instances get_network_type self false true network_type
        = List.filter
            (fun ud => network_type_in (get_network_type (fst ud))
                         (rebind_network_type network_type))
            (instances self)).
Proof.
  split.
  - intros self u1 u2 u3 Hi. unfold iter_instances. rewrite Hi.
    split; by intros ->.
  - intros self nt Hp. unfold iter_instances, yields, PyDict.items.
    rewrite Hp. apply filter_ext. intros [u d]. simpl.
    by destruct (network_type_in _ _).
Qed.

(** C8: a record whose [version] key is bound to [None] is not valid;
    [iter_instances] with [only_valid=True] never yields it, and neither
    does a store that is not private when [valid_or_private=True]. *)
Theorem version_None_not_valid detail :
  PyDict.get "version" detail = Some VNone ->
  _is_valid_instance detail = false
  /\ (forall self valid_or_private network_type u,
        ~ In (u, detail)
            (iter_instances get_network_type self true valid_or_private
               network_type))
  /\ (forall self only_valid network_type u,
        private self = false ->
        ~ In (u, detail)
            (iter_instances get_network_type self only_valid true
               network_type)).
Proof.
  intros Hv.
  assert (_is_valid_instance detail = false) as Hf.
  { unfold _is_valid_instance. by rewrite Hv. }
  split; [done|]. split.
  - intros self vp nt u [_ Hy]%iter_instances_In.
    apply yields_only_valid in Hy. congruence.
  - intros self ov nt u Hp [_ Hy]%iter_instances_In.
    rewrite Hp in Hy. apply yields_not_private in Hy. congruence.
Qed.

Lemma network_type_in_singleton (t t' : NetworkType) :
  network_type_in t' (NetworkTypes [t]) = true <-> t' = t.
Proof.
  unfold network_type_in. rewrite bool_decide_eq_true.
  by rewrite list_elem_of_singleton.
Qed.

Lemma yields_member private only_valid valid_or_private t u detail :
  yields get_network_type private only_valid valid_or_private
    (NetworkTypes [t]) u detail
  = yields get_network_type private only_valid valid_or_private
      AllNetworkTypes u detail
    && bool_decide (get_network_type u = t).
Proof.
  unfold yields, network_type_in.
  rewrite (bool_decide_ext (get_network_type u ∈ [t]) (get_network_type u = t))
    by apply list_elem_of_singleton.
  destruct (only_valid && negb (_is_valid_instance detail)); [done|].
  destruct (valid_or_private && negb private
            && negb (_is_valid_instance detail)); [done|].
  by destruct (bool_decide _).
Qed.

(** C10: passing one [NetworkType] member is the same as passing the list
    that holds just that member; the pairs yielded are then the ones
    yielded for the default argument whose URL is of that network type;
    with the default argument, the enumeration itself, no network type is
    filtered out. *)
Theorem iter_instances_network_type self only_valid valid_or_private t :
  iter_instances get_network_type self only_valid valid_or_private
    (NetworkTypeMember t)
  = iter_instances get_network_type self only_valid valid_or_private
      (NetworkTypeList [t])
  /\ iter_instances get_network_type self only_valid valid_or_private
       (NetworkTypeMember t)
     = List.filter
         (fun ud => bool_decide (get_network_type (fst ud) = t))
         (iter_instances get_network_type self only_valid valid_or_private
            NetworkTypeClass)
  /\ (forall t' : NetworkType,
        network_type_in t' (rebind_network_type NetworkTypeClass)
                 = true)
  /\ iter_instances get_network_type self only_valid valid_or_private
       NetworkTypeClass
     = List.filter
         (fun ud =>
            negb (only_valid && negb (_is_valid_instance (snd ud)))
            && negb (valid_or_private && negb (private self)
                     && negb (_is_valid_instance (snd ud))))
         (instances self).
Proof.
  split; [done|]. split; [|split; [done|]].
  - unfold iter_instances, PyDict.items.
    induction (instances self) as [|[u d] l IH]; [done|].
    cbn [List.filter fst snd rebind_network_type] in *.
    rewrite yields_member.
    destruct (yields _ _ _ _ AllNetworkTypes u d); cbn [andb List.filter fst];
      [|exact IH].
    destruct (bool_decide _); by rewrite IH.
  - unfold iter_instances, PyDict.items. apply filter_ext. intros [u d].
    unfold yields. cbn [fst snd rebind_network_type network_type_in negb].
    destruct (only_valid && negb (_is_valid_instance d)); [done|].
    by destruct (valid_or_private && negb (private self)
                 && negb (_is_valid_instance d)).
Qed.
End iteration_facts.

(** ** The store *)

(** C6: [get_instance] returns the record stored at a URL of the store and
    leaves the store as it was; at a URL the store does not have it raises
    [KeyError], and so does any computation that goes on from its
    result. *)
Theorem get_instance_spec self url :
  (In url (PyDict.keys (instances self)) ->
   exists detail,
     PyDict.get url (instances self) = Some detail
     /\ In (url, detail) (instances self)
     /\ get_instance url self = (Ok detail, self))
  /\ (~ In url (PyDict.keys (instances self)) ->
      get_instance url self = (Raise (KeyError url), self)
      /\ forall (B : Type) (k : dict -> method B),
           bind (get_instance url) k self = (Raise (KeyError url), self)).
Proof.
  split.
  - intros [detail Hd]%get_Some_keys. exists detail.
    split; [done|]. split.
    + clear -Hd. induction (instances self) as [|[u d] l IH]; [done|].
      simpl in Hd. destruct (String.eqb_spec url u) as [->|Hne].
      * left. congruence.
      * right. by apply IH.
    + unfold get_instance. by rewrite Hd.
  - intros Hn%get_None_keys. unfold bind, get_instance. by rewrite Hn.
Qed.

(** C7: what [write] dumps under the output file name has exactly the
    keys [metadata], [instances], [engines], [engine_errors],
    [categories], [hashes], [cidrs] and [forks], each bound to the field of
    the store of that name; there is no [private] key, and the flag has no
    influence on what is written. *)
Theorem write_fields self output_file_name fs :
  exists out,
    write self output_file_name fs !! output_file_name = Some out
    /\ PyDict.keys out
       = ["metadata"; "instances"; "engines"; "engine_errors"; "categories";
          "hashes"; "cidrs"; "forks"]
    /\ PyDict.get "metadata" out = Some (VDict (metadata self))
    /\ PyDict.get "instances" out
       = Some (VDict (map (fun ud => (fst ud, VDict (snd ud)))
                        (instances self)))
    /\ PyDict.get "engines" out = Some (VDict (engines self))
    /\ PyDict.get "engine_errors" out = Some (VList (engine_errors self))
    /\ PyDict.get "categories" out = Some (VList (categories self))
    /\ PyDict.get "hashes" out = Some (VList (hashes self))
    /\ PyDict.get "cidrs" out = Some (VDict (cidrs self))
    /\ PyDict.get "forks" out = Some (VList (forks self))
    /\ PyDict.contains "private" out = false
    /\ forall b, write (set_private self b) output_file_name fs
                 = write self output_file_name fs.
Proof.
  exists (searx_json self). unfold write.
  rewrite lookup_insert_eq. repeat split.
Qed.

(** ** The probe adapter *)

Lemma get_function_None self name :
  get_function self name = PyNone <->
  forall f, namespace (fetch_module self) !! name <> Some (PyFunction f).
Proof.
  unfold get_function.
  destruct (namespace (fetch_module self) !! name) as [[| f |v]|];
    split; try done.
  intros Hf. by destruct (Hf f).
Qed.

Lemma get_function_Some self name f :
  get_function self name = PyFunction f <->
  namespace (fetch_module self) !! name = Some (PyFunction f).
Proof.
  unfold get_function.
  destruct (namespace (fetch_module self) !! name) as [[| g |v]|];
    split; try done; by intros [= ->].
Qed.

Lemma wrapped_call_ok func args w :
  exists w', call (utils.print_exception_wrapper func) args w = (Ok tt, w').
Proof.
  simpl. destruct (call func args w) as [[[]|e] w']; eauto.
Qed.

Section fetcher_facts.
Context {Loop Executor : Type}.
Implicit Types (self : Fetcher) (loop : Loop) (executor : Executor).

(** C9: [create_fetch_task] has no fallback for a missing entry point.
    Whatever the two helpers do, when [get_function('fetch')] is [None] the
    task is the one made from the wrapped [None], while
    [create_initialize_task] returns the no-op [dummy()] when
    [get_function('initialize')] is [None].  With the helpers as they are
    documented, the fetch task of such a module calls [None] and prints
    the resulting [TypeError], which the no-op never does. *)
Theorem create_fetch_task_no_fallback self loop executor searx_stats_result :
  (forall (print_exception_wrapper : pyobj -> pyobj)
          (create_task : Loop -> Executor -> pyobj -> list argument ->
                         awaitable),
     (get_function self "fetch" = PyNone ->
      create_fetch_task print_exception_wrapper create_task self loop
        executor searx_stats_result
      = create_task loop executor (print_exception_wrapper PyNone)
          [searx_stats_result])
     /\ (get_function self "initialize" = PyNone ->
         create_initialize_task create_task self loop executor = dummy))
  /\ (get_function self "fetch" = PyNone ->
      forall w,
        create_fetch_task utils.print_exception_wrapper utils.create_task
          self loop executor searx_stats_result w
        = (Ok tt,
           print_exception (TypeError "'NoneType' object is not callable") w)
        /\ dummy w = (Ok tt, w)).
Proof.
  split.
  - intros pew ct. unfold create_fetch_task, create_initialize_task.
    split; by intros ->.
  - intros Hf w. unfold create_fetch_task. by rewrite Hf.
Qed.

(** C2: the task made by [create_fetch_task] runs the module's [fetch] on
    the store; an exception raised inside it is printed and the task ends
    normally, in whatever world it is run: the console then holds the
    exception as its last line, after what [fetch] itself printed, and
    the store is as [fetch] left it.  When [fetch] returns, the task leaves
    the world as [fetch] left it.  Awaiting the fetch tasks of any list of
    probes one after the other therefore never ends with an exception. *)
Theorem create_fetch_task_catches self loop executor searx_stats_result w :
  (forall f,
     get_function self "fetch" = PyFunction f ->
     create_fetch_task utils.print_exception_wrapper utils.create_task self
       loop executor searx_stats_result w
     = match f [searx_stats_result] w with
       | (Ok _, w') => (Ok tt, w')
       | (Raise e, w') => (Ok tt, print_exception e w')
       end)
  /\ (exists w',
        create_fetch_task utils.print_exception_wrapper utils.create_task
          self loop executor searx_stats_result w = (Ok tt, w'))
  /\ (forall fetchers : list Fetcher,
        fst (run_tasks
               (map (fun probe =>
                       create_fetch_task utils.print_exception_wrapper
                         utils.create_task probe loop executor
                         searx_stats_result)
                  fetchers) w) = Ok tt)
  /\ (forall f e w',
        get_function self "fetch" = PyFunction f ->
        f [searx_stats_result] w = (Raise e, w') ->
        exists w'',
          create_fetch_task utils.print_exception_wrapper utils.create_task
            self loop executor searx_stats_result w = (Ok tt, w'')
          /\ stdout w'' = (stdout w' ++ [e])%list
          /\ store w'' = store w'
          /\ objects w'' = objects w'
          /\ instance_ids w'' = instance_ids w')
  /\ (forall f w',
        get_function self "fetch" = PyFunction f ->
        f [searx_stats_result] w = (Ok tt, w') ->
        create_fetch_task utils.print_exception_wrapper utils.create_task
          self loop executor searx_stats_result w = (Ok tt, w')).
Proof.
  split; [|split; [|split; [|split]]].
  - intros f Hf. unfold create_fetch_task. by rewrite Hf.
  - apply wrapped_call_ok.
  - intros fetchers. revert w.
    induction fetchers as [|probe fetchers IH]; intros w; [done|].
    cbn [map run_tasks]. unfold bind at 1.
    destruct (wrapped_call_ok (get_function probe "fetch")
                [searx_stats_result] w) as [w' Hw'].
    unfold create_fetch_task, utils.create_task at 1. rewrite Hw'.
    apply IH.
  - intros f e w' Hf Hr. unfold create_fetch_task. rewrite Hf. simpl.
    rewrite Hr. eexists. split; [done|]. by repeat split.
  - intros f w' Hf Hr. unfold create_fetch_task. rewrite Hf. simpl.
    by rewrite Hr.
Qed.
End fetcher_facts.

(** ** The deep merge *)


Lemma nodup_keys_NoDup ks : nodup_keys ks = true -> List.NoDup ks.
Proof.
  induction ks as [|k ks IH]; simpl; [constructor|].
  rewrite andb_true_iff, negb_true_iff. intros [Hk Hks].
  constructor; [|by apply IH].
  intros Hin. apply not_true_iff_false in Hk. apply Hk.
  apply existsb_exists. exists k. split; [done|]. apply String.eqb_refl.
Qed.


Lemma get_NoDup_In {V} k (v : V) (d : list (string * V)) :
  List.NoDup (map fst d) -> In (k, v) d -> PyDict.get k d = Some v.
Proof.
  induction d as [|[k' v'] d IH]; [done|]. simpl.
  intros Hnd [Heq|Hin].
  - injection Heq as -> ->. by rewrite String.eqb_refl.
  - inversion Hnd as [|? ? Hk Hd]; subst.
    destruct (String.eqb_spec k k') as [->|Hne]; [|by apply IH].
    destruct Hk. by apply (in_map fst) in Hin.
Qed.

Lemma dict_merge_nil d : utils.dict_merge d [] = d.
Proof. done. Qed.

















(** ** The bounded concurrency driver *)

Section foreach_facts.
Context {A W : Type}.
Variable operation : A -> M W unit.
Variable log_failure : A -> exn -> W -> W.
Variable limit : nat.
Implicit Types (st : @foreach.state A W) (e : foreach.event).
Implicit Types (sequence : list A) (w : W).

Lemma initial_invariant sequence w :
  pass_invariant limit sequence (foreach.initial sequence w).
Proof. repeat split; simpl; [lia|done]. Qed.

Lemma remaining_initial sequence w :
  remaining (foreach.initial sequence w) = 2 * length sequence.
Proof. unfold remaining. simpl. lia. Qed.

Lemma step_invariant sequence e st st' :
  pass_invariant limit sequence st ->
  foreach.step operation log_failure limit e st = Some st' ->
  pass_invariant limit sequence st'.
Proof.
  intros (Hlim & Hseq & Hperm). destruct e as [|slot]; simpl.
  - destruct (foreach.queue st) as [|x q] eqn:Hq; [done|].
    destruct (Nat.ltb_spec (length (foreach.running st)) limit)
      as [Hlt|]; [|done].
    intros [= <-]. repeat split; simpl.
    + rewrite length_app. simpl. lia.
    + by rewrite <- Hseq, <- app_assoc.
    + rewrite Hperm, app_assoc. done.
  - destruct (foreach.running st !! slot) as [x|] eqn:Hx; [|done].
    destruct (operation x (foreach.shared st)) as [r w'].
    intros [= <-]. repeat split; simpl.
    + rewrite length_delete by eauto. lia.
    + done.
    + etransitivity; [exact Hperm|].
      rewrite map_app, <- app_assoc. apply Permutation_app_head.
      by apply delete_Permutation.
Qed.

Lemma step_remaining e st st' :
  foreach.step operation log_failure limit e st = Some st' ->
  remaining st = S (remaining st').
Proof.
  unfold remaining. destruct e as [|slot]; simpl.
  - destruct (foreach.queue st) as [|x q] eqn:Hq; [done|].
    destruct (Nat.ltb _ _); [|done]. intros [= <-]. simpl.
    rewrite length_app. simpl. lia.
  - destruct (foreach.running st !! slot) as [x|] eqn:Hx; [|done].
    destruct (operation x (foreach.shared st)) as [r w'].
    intros [= <-]. simpl. rewrite length_delete by eauto.
    apply lookup_lt_Some in Hx. lia.
Qed.

Lemma run_invariant sequence schedule : forall st st',
  pass_invariant limit sequence st ->
  foreach.run operation log_failure limit schedule st = Some st' ->
  pass_invariant limit sequence st'.
Proof.
  induction schedule as [|e schedule IH]; intros st st' Hinv; simpl.
  - by intros [= <-].
  - destruct (foreach.step operation log_failure limit e st) as [st1|] eqn:Hstep;
      [|done].
    apply IH. by eapply step_invariant.
Qed.

Lemma run_remaining schedule : forall st st',
  foreach.run operation log_failure limit schedule st = Some st' ->
  remaining st = length schedule + remaining st'.
Proof.
  induction schedule as [|e schedule IH]; intros st st'; simpl.
  - by intros [= <-].
  - destruct (foreach.step operation log_failure limit e st) as [st1|] eqn:Hstep;
      [|done].
    intros Hrun. rewrite (step_remaining _ _ _ Hstep), (IH _ _ Hrun). lia.
Qed.

Lemma run_app schedule schedule' : forall st st' st'',
  foreach.run operation log_failure limit schedule st = Some st' ->
  foreach.run operation log_failure limit schedule' st' = Some st'' ->
  foreach.run operation log_failure limit (schedule ++ schedule') st = Some st''.
Proof.
  induction schedule as [|e schedule IH]; intros st st' st''; simpl.
  - by intros [= <-].
  - destruct (foreach.step operation log_failure limit e st) as [st1|]; [|done].
    apply IH.
Qed.

Lemma completed_remaining st :
  foreach.completed st = true <-> remaining st = 0.
Proof.
  unfold foreach.completed, remaining.
  destruct (foreach.queue st), (foreach.running st); simpl; split;
    (done || lia).
Qed.

(** While the pass is not over the policy names an event, and the event
    is enabled. *)
Lemma next_enabled pick st :
  0 < limit -> foreach.completed st = false ->
  exists e st', foreach.next limit pick st = Some e
                /\ foreach.step operation log_failure limit e st = Some st'.
Proof.
  intros Hpos Hc.
  assert (forall n, is_Some (foreach.running st !! (n mod length (foreach.running st)))
                    \/ foreach.running st = []) as Hslot.
  { intros n. destruct (foreach.running st) as [|y r] eqn:Hr; [by right|].
    left. apply lookup_lt_is_Some. apply Nat.mod_upper_bound. done. }
  assert (forall slot, is_Some (foreach.running st !! slot) ->
            exists st', foreach.step operation log_failure limit (foreach.Finish slot) st
                        = Some st') as Hfin.
  { intros slot [x Hx]. simpl. rewrite Hx.
    destruct (operation x (foreach.shared st)). eauto. }
  assert (forall x q, foreach.queue st = x :: q ->
            length (foreach.running st) < limit ->
            exists st', foreach.step operation log_failure limit foreach.Start st
                        = Some st') as Hstart.
  { intros x q Hq Hlt. simpl. rewrite Hq.
    apply Nat.ltb_lt in Hlt as ->. eauto. }
  unfold foreach.next, foreach.completed in *.
  destruct (foreach.queue st) as [|x q] eqn:Hq,
           (foreach.running st) as [|y r] eqn:Hr; try done.
  - destruct (Hslot (pick st)) as [Hs|]; [|done].
    destruct (Hfin _ Hs) as [st' Hst']. eauto.
  - destruct (Hstart x q eq_refl) as [st' Hst']; [simpl; lia|]. eauto.
  - destruct (Nat.ltb_spec (length (y :: r)) limit) as [Hlt|Hge].
    + destruct (Hstart x q eq_refl Hlt) as [st' Hst']. eauto.
    + destruct (Hslot (pick st)) as [Hs|]; [|done].
      destruct (Hfin _ Hs) as [st' Hst']. eauto.
Qed.

Lemma next_None pick st :
  foreach.completed st = true -> foreach.next limit pick st = None.
Proof.
  unfold foreach.next, foreach.completed.
  by destruct (foreach.queue st), (foreach.running st).
Qed.

(** The driver follows a schedule, and stops short of its fuel only when
    the pass is over. *)
Lemma drive_run pick :
  0 < limit ->
  forall fuel st,
    exists schedule,
      foreach.run operation log_failure limit schedule st
      = Some (foreach.drive operation log_failure limit pick fuel st)
      /\ (length schedule = fuel
          \/ foreach.completed (foreach.drive operation log_failure limit pick fuel st)
             = true).
Proof.
  intros Hpos. induction fuel as [|fuel IH]; intros st.
  - exists []. split; [done|by left].
  - destruct (foreach.completed st) eqn:Hc.
    + exists []. simpl. rewrite (next_None _ _ Hc). split; [done|by right].
    + destruct (next_enabled pick st Hpos Hc) as (e & st' & Hn & Hs).
      destruct (IH st') as (schedule & Hrun & Hlen).
      exists (e :: schedule). simpl. rewrite Hn, Hs. split; [done|].
      destruct Hlen as [<-|Hdone]; [by left|by right].
Qed.

Lemma for_each_completes pick sequence w :
  0 < limit ->
  exists schedule,
    foreach.run operation log_failure limit schedule (foreach.initial sequence w)
    = Some (foreach.for_each operation log_failure limit pick sequence w)
    /\ foreach.completed (foreach.for_each operation log_failure limit pick sequence w)
       = true.
Proof.
  intros Hpos. unfold foreach.for_each.
  destruct (drive_run pick Hpos (2 * length sequence)
              (foreach.initial sequence w)) as (schedule & Hrun & Hlen).
  exists schedule. split; [done|].
  destruct Hlen as [Hlen|Hdone]; [|done].
  apply completed_remaining. apply run_remaining in Hrun.
  rewrite remaining_initial in Hrun. lia.
Qed.

Lemma completed_all_attempted sequence st :
  pass_invariant limit sequence st -> foreach.completed st = true ->
  foreach.started st = sequence
  /\ Permutation (map fst (foreach.finished st)) sequence.
Proof.
  intros (_ & Hseq & Hperm). unfold foreach.completed.
  destruct (foreach.queue st) eqn:Hq; [|done].
  destruct (foreach.running st) eqn:Hr; [|done]. intros _.
  rewrite app_nil_r in Hseq, Hperm. subst. split; [done|].
  by symmetry.
Qed.

(** The outcomes recorded and the world reached are those of the
    invocations made one after the other in the order they finished. *)
Lemma replay_snoc xs : forall x w,
  foreach.replay operation log_failure (xs ++ [x]) w
  = (let (outcomes, w1) := foreach.replay operation log_failure xs w in
     let (r, w') := operation x w1 in
     (outcomes ++ [(x, r)], foreach.settle log_failure x (r, w')))%list.
Proof.
  induction xs as [|y xs IH]; intros x w; simpl.
  - by destruct (operation x w).
  - destruct (operation y w) as [r w']. rewrite IH.
    destruct (foreach.replay operation log_failure xs _) as [outcomes w1].
    by destruct (operation x w1).
Qed.

Lemma step_replay w0 e st st' :
  foreach.replay operation log_failure (map fst (foreach.finished st)) w0
  = (foreach.finished st, foreach.shared st) ->
  foreach.step operation log_failure limit e st = Some st' ->
  foreach.replay operation log_failure (map fst (foreach.finished st')) w0
  = (foreach.finished st', foreach.shared st').
Proof.
  intros Hrep. destruct e as [|slot]; simpl.
  - destruct (foreach.queue st) as [|x q]; [done|].
    destruct (Nat.ltb _ _); [|done]. by intros [= <-].
  - destruct (foreach.running st !! slot) as [x|]; [|done].
    destruct (operation x (foreach.shared st)) as [r w'] eqn:Hop.
    intros [= <-]. cbn [foreach.finished foreach.shared].
    rewrite map_app. cbn [map fst]. rewrite replay_snoc, Hrep.
    by rewrite Hop.
Qed.

Lemma run_replay w0 schedule : forall st st',
  foreach.replay operation log_failure (map fst (foreach.finished st)) w0
  = (foreach.finished st, foreach.shared st) ->
  foreach.run operation log_failure limit schedule st = Some st' ->
  foreach.replay operation log_failure (map fst (foreach.finished st')) w0
  = (foreach.finished st', foreach.shared st').
Proof.
  induction schedule as [|e schedule IH]; intros st st' Hrep; simpl.
  - by intros [= <-].
  - destruct (foreach.step operation log_failure limit e st) as [st1|]
      eqn:Hstep; [|done].
    apply IH. by eapply step_replay.
Qed.

(** With a positive limit [for_each] amounts to the invocations made one
    after the other on the elements of the sequence, in some order. *)
Lemma for_each_replay pick sequence w :
  0 < limit ->
  exists order,
    Permutation order sequence
    /\ foreach.replay operation log_failure order w
       = (foreach.finished
            (foreach.for_each operation log_failure limit pick sequence w),
          foreach.shared
            (foreach.for_each operation log_failure limit pick sequence w)).
Proof.
  intros Hpos.
  destruct (for_each_completes pick sequence w Hpos)
    as (schedule & Hrun & Hdone).
  exists (map fst (foreach.finished
                     (foreach.for_each operation log_failure limit pick
                        sequence w))).
  split.
  - eapply completed_all_attempted; [|done].
    eapply run_invariant; [apply initial_invariant|exact Hrun].
  - by apply (run_replay w schedule (foreach.initial sequence w)).
Qed.
End foreach_facts.


(** ** The pass of [fetch] *)

Lemma filter_map_view {X Y} (g : X -> Y) (f : Y -> bool) (l : list X) :
  List.filter f (map g l) = map g (List.filter (fun x => f (g x)) l).
Proof.
  induction l as [|x l IH]; simpl; [done|].
  destruct (f (g x)); simpl; by rewrite IH.
Qed.

(** The objects [fetch] iterates over are the pairs [iter_instances]
    yields on the store, each record given by its identity. *)
Lemma iter_objects_view {NetworkType : Type} `{EqDecision NetworkType}
    (get_network_type : string -> NetworkType) only_valid valid_or_private
    network_type w :
  map (fun ua => (fst ua, deref w (snd ua)))
    (iter_objects get_network_type only_valid valid_or_private network_type
       w)
  = iter_instances get_network_type (store w) only_valid valid_or_private
      network_type.
Proof.
  unfold iter_objects, iter_instances, store, PyDict.items. simpl.
  by rewrite filter_map_view.
Qed.


(** The pass [fetch] starts: whatever the scheduler does, at most [limit]
    instances are being fetched, the instances are those [iter_instances]
    yields, in its order. *)
Lemma fetch_pass_bounded {NetworkType : Type} `{EqDecision NetworkType}
    (get_network_type : string -> NetworkType) only_valid valid_or_private
    network_type (operation : string * nat -> M world unit) log_failure
    limit w schedule st :
  foreach.run operation log_failure limit schedule
    (fetch_pass get_network_type only_valid valid_or_private network_type w)
  = Some st ->
  length (foreach.running st) <= limit
  /\ map (fun ua => (fst ua, deref w (snd ua)))
       (foreach.started st ++ foreach.queue st)
     = iter_instances get_network_type (store w) only_valid valid_or_private
         network_type.
Proof.
  intros Hrun. unfold fetch_pass in Hrun.
  apply (run_invariant _ _ _ _ _ _ _ (initial_invariant limit _ w)) in Hrun
    as (Hlim & Hseq & _).
  split; [done|]. rewrite Hseq. apply iter_objects_view.
Qed.
(** * Worked examples *)

(** A pass of [fetch] over the sample store with limit [2]: the records of
    the two instances whose probe succeeds receive the fragment under
    [http], the failing one is left as it was and its exception is
    printed. *)
Example fetch_sample :
  let w :=
    snd (fetch sample_get_network_type ["http"] sample_probe false false
           NetworkTypeClass 2 (fun _ => 0)
           (world_of_store (sample_store false))) in
  instances (store w)
  = [("https://a.example",
      [("version", VStr "1.0"); ("http", VDict [("status_code", VNum 200)])]);
     ("https://b.example", [("error", VStr "timeout")]);
     ("https://c.example", [("http", VDict [("status_code", VNum 200)])])]
  /\ stdout w = [Exception "connection refused"].
Proof. split; reflexivity. Qed.


(** A probe whose [fetch] raises: the task prints the exception and ends
    normally. *)
Lemma create_fetch_task_catches_witness :
  get_function (sample_fetcher failing_module) "fetch"
  = PyFunction failing_fetch
  /\ forall w : world,
       failing_fetch [ArgStore] w = (Raise (Exception "boom"), w)
       /\ create_fetch_task (Loop:=unit) (Executor:=unit)
            utils.print_exception_wrapper utils.create_task
            (sample_fetcher failing_module) tt tt ArgStore w
          = (Ok tt, print_exception (Exception "boom") w)
       /\ exists w'',
            create_fetch_task (Loop:=unit) (Executor:=unit)
              utils.print_exception_wrapper utils.create_task
              (sample_fetcher failing_module) tt tt ArgStore w
            = (Ok tt, w'')
            /\ stdout w'' = (stdout w ++ [Exception "boom"])%list.
Proof.
  assert (get_function (sample_fetcher failing_module) "fetch"
          = PyFunction failing_fetch) as Hf by (vm_compute; reflexivity).
  split; [exact Hf|]. intros w.
  assert (failing_fetch [ArgStore] w = (Raise (Exception "boom"), w)) as Hr
    by reflexivity.
  destruct (create_fetch_task_catches (sample_fetcher failing_module)
              tt tt ArgStore w) as (Hrun & _ & _ & Hlog & _).
  split; [exact Hr|]. split; [exact (Hrun failing_fetch Hf)|].
  destruct (Hlog failing_fetch _ _ Hf Hr) as (w'' & Hw'' & Hout & _).
  exists w''. split; [exact Hw''|exact Hout].
Defined.

(** The sample store, public or private. *)
Lemma iter_instances_only_valid_witness :
  instances (sample_store false)
  = sample_instances "https://a.example" "https://b.example"
      "https://c.example"
  /\ iter_instances sample_get_network_type (sample_store false) true true
       NetworkTypeClass
     = [("https://a.example", valid_record)]
  /\ In ("https://a.example", valid_record)
       (iter_instances sample_get_network_type (sample_store false) true
          true NetworkTypeClass)
  /\ PyDict.contains "error" valid_record = false.
Proof.
  destruct (iter_instances_only_valid sample_get_network_type) as [Hex Hall].
  assert (iter_instances sample_get_network_type (sample_store false) true
            true NetworkTypeClass = [("https://a.example", valid_record)])
    as Heq
    by (apply (Hex _ _ "https://b.example" "https://c.example");
        reflexivity).
  split; [reflexivity|]. split; [exact Heq|].
  assert (In ("https://a.example", valid_record)
            (iter_instances sample_get_network_type (sample_store false)
               true true NetworkTypeClass)) as Hin
    by (vm_compute; left; reflexivity).
  split; [exact Hin|]. exact (proj2 (Hall _ _ _ _ _ Hin)).
Defined.

Lemma iter_instances_valid_or_private_witness :
  private (sample_store true) = true
  /\ iter_instances sample_get_network_type (sample_store false) false true
       NetworkTypeClass
     = [("https://a.example", valid_record)]
  /\ iter_instances sample_get_network_type (sample_store true) false true
       NetworkTypeClass
     = [("https://a.example", valid_record);
        ("https://b.example", invalid_record);
        ("https://c.example", pending_record)].
Proof.
  destruct (iter_instances_valid_or_private sample_get_network_type)
    as [Hex _].
  split; [reflexivity|]. split.
  - apply (Hex (sample_store false) _ "https://b.example"
             "https://c.example"); reflexivity.
  - apply (Hex (sample_store true)); reflexivity.
Defined.

Lemma version_None_not_valid_witness :
  PyDict.get "version" null_version_record = Some VNone
  /\ _is_valid_instance null_version_record = false.
Proof.
  split; [reflexivity|].
  apply (version_None_not_valid sample_get_network_type null_version_record).
  reflexivity.
Defined.


Lemma get_instance_spec_witness :
  In "https://b.example" (PyDict.keys (instances (sample_store false)))
  /\ get_instance "https://b.example" (sample_store false)
     = (Ok invalid_record, sample_store false)
  /\ ~ In "https://z.example" (PyDict.keys (instances (sample_store false)))
  /\ get_instance "https://z.example" (sample_store false)
     = (Raise (KeyError "https://z.example"), sample_store false).
Proof.
  assert (In "https://b.example"
            (PyDict.keys (instances (sample_store false)))) as Hin
    by (vm_compute; right; left; reflexivity).
  assert (~ In "https://z.example"
            (PyDict.keys (instances (sample_store false)))) as Hout.
  { vm_compute. intros [H|[H|[H|[]]]]; discriminate H. }
  split; [exact Hin|].
  destruct (get_instance_spec (sample_store false) "https://b.example")
    as [Hpresent _].
  destruct (get_instance_spec (sample_store false) "https://z.example")
    as [_ Habsent].
  split.
  - destruct (Hpresent Hin) as (detail & Hget & _ & Heq).
    rewrite Heq. vm_compute in Hget. injection Hget as <-. reflexivity.
  - split; [exact Hout|]. exact (proj1 (Habsent Hout)).
Defined.

Lemma create_fetch_task_no_fallback_witness :
  get_function (sample_fetcher empty_module) "fetch" = PyNone
  /\ get_function (sample_fetcher empty_module) "initialize" = PyNone
  /\ create_initialize_task (Loop:=unit) (Executor:=unit) utils.create_task
       (sample_fetcher empty_module) tt tt = dummy
  /\ forall w : world,
       create_fetch_task (Loop:=unit) (Executor:=unit)
         utils.print_exception_wrapper utils.create_task
         (sample_fetcher empty_module) tt tt ArgStore w
       = (Ok tt,
          print_exception (TypeError "'NoneType' object is not callable") w).
Proof.
  assert (get_function (sample_fetcher empty_module) "fetch" = PyNone)
    as Hf by (vm_compute; reflexivity).
  assert (get_function (sample_fetcher empty_module) "initialize" = PyNone)
    as Hi by (vm_compute; reflexivity).
  destruct (create_fetch_task_no_fallback (sample_fetcher empty_module)
              tt tt ArgStore) as [Hgen Hrun].
  split; [exact Hf|]. split; [exact Hi|]. split.
  - exact (proj2 (Hgen utils.print_exception_wrapper utils.create_task) Hi).
  - intros w. exact (proj1 (Hrun Hf w)).
Defined.

(** * Further properties of the store *)

(** ** More on dictionaries *)

Section PyDict_more.
Context {V : Type}.
Implicit Types (d other : list (string * V)) (k : string) (v : V).

Lemma keys_setitem k v d :
  PyDict.keys (PyDict.setitem k v d)
  = if PyDict.contains k d then PyDict.keys d
    else (PyDict.keys d ++ [k])%list.
Proof.
  unfold PyDict.contains, PyDict.keys.
  induction d as [|[k' v'] d IH]; simpl; [done|].
  destruct (String.eqb_spec k k') as [->|Hne]; simpl; [done|].
  rewrite IH. by destruct (PyDict.get k d).
Qed.

Lemma In_setitem k v d : In (k, v) (PyDict.setitem k v d).
Proof.
  induction d as [|[k' v'] d IH]; simpl; [by left|].
  destruct (String.eqb_spec k k') as [->|Hne]; [by left|by right].
Qed.

Lemma In_keys_setitem k k' v d :
  In k (PyDict.keys d) -> In k (PyDict.keys (PyDict.setitem k' v d)).
Proof.
  rewrite keys_setitem. destruct (PyDict.contains k' d); [done|].
  intros Hin. apply in_or_app. by left.
Qed.

Lemma NoDup_keys_setitem k v d :
  List.NoDup (PyDict.keys d) -> List.NoDup (PyDict.keys (PyDict.setitem k v d)).
Proof.
  intros Hnd. rewrite keys_setitem.
  destruct (PyDict.contains k d) eqn:Hc; [done|].
  apply NoDup_ListNoDup, NoDup_app. split; [by apply NoDup_ListNoDup|].
  split; [|apply NoDup_singleton].
  intros x Hx ->%list_elem_of_singleton.
  apply list_elem_of_In, contains_keys in Hx. congruence.
Qed.

Lemma In_keys_update other : forall d k,
  In k (PyDict.keys d) \/ In k (PyDict.keys other) ->
  In k (PyDict.keys (PyDict.update d other)).
Proof.
  induction other as [|[k' v'] other IH]; intros d k; simpl.
  - by intros [?|[]].
  - intros [Hd|[<-|Ho]]; apply IH.
    + left. by apply In_keys_setitem.
    + left. apply (in_map fst _ _ (In_setitem k' v' d)).
    + by right.
Qed.

Lemma NoDup_keys_update other : forall d,
  List.NoDup (PyDict.keys d) ->
  List.NoDup (PyDict.keys (PyDict.update d other)).
Proof.
  induction other as [|[k v] other IH]; intros d Hnd; simpl; [done|].
  by apply IH, NoDup_keys_setitem.
Qed.

(** Keys [other] does not mention keep their value. *)
Lemma get_update_other other : forall d k,
  ~ In k (PyDict.keys other) ->
  PyDict.get k (PyDict.update d other) = PyDict.get k d.
Proof.
  induction other as [|[k' v'] other IH]; intros d k Hk; simpl; [done|].
  rewrite IH.
  - apply get_setitem_ne. intros ->. apply Hk. by left.
  - intros Hin. apply Hk. by right.
Qed.

(** Keys of [other] take the value [other] has for them. *)
Lemma get_update_In other : forall d k v,
  List.NoDup (PyDict.keys other) -> In (k, v) other ->
  PyDict.get k (PyDict.update d other) = Some v.
Proof.
  induction other as [|[k' v'] other IH]; intros d k v Hnd Hin; [done|].
  inversion Hnd as [|? ? Hk Hd]; subst. simpl.
  destruct Hin as [[= -> ->]|Hin].
  - rewrite get_update_other by done. apply get_setitem_eq.
  - by apply IH.
Qed.

Lemma get_In k v d : PyDict.get k d = Some v -> In (k, v) d.
Proof.
  induction d as [|[k' v'] d IH]; simpl; [done|].
  destruct (String.eqb_spec k k') as [->|Hne].
  - intros [= ->]. by left.
  - intros Hg. right. by apply IH.
Qed.

Lemma get_update other d k :
  List.NoDup (PyDict.keys other) ->
  PyDict.get k (PyDict.update d other)
  = match PyDict.get k other with
    | Some v => Some v
    | None => PyDict.get k d
    end.
Proof.
  intros Hnd. destruct (PyDict.get k other) as [v|] eqn:Hg.
  - apply get_update_In; [done|]. by apply get_In.
  - apply get_update_other. by apply get_None_keys.
Qed.

Lemma update_fixed other : forall d,
  (forall k v, In (k, v) other -> PyDict.get k d = Some v) ->
  PyDict.update d other = d.
Proof.
  induction other as [|[k v] other IH]; intros d Hd; simpl; [done|].
  rewrite setitem_same by (apply Hd; by left).
  apply IH. intros k' v' Hin. apply Hd. by right.
Qed.

Lemma update_idempotent other d :
  List.NoDup (PyDict.keys other) ->
  PyDict.update (PyDict.update d other) other = PyDict.update d other.
Proof.
  intros Hnd. apply update_fixed. intros k v Hin. by apply get_update_In.
Qed.

Lemma update_self d :
  List.NoDup (PyDict.keys d) -> PyDict.update d d = d.
Proof.
  intros Hnd. apply update_fixed. intros k v Hin.
  by apply get_NoDup_In.
Qed.

Lemma keys_update_present other : forall d,
  (forall k, In k (PyDict.keys other) -> In k (PyDict.keys d)) ->
  PyDict.keys (PyDict.update d other) = PyDict.keys d.
Proof.
  induction other as [|[k v] other IH]; intros d Hsub; simpl; [done|].
  assert (PyDict.keys (PyDict.setitem k v d) = PyDict.keys d) as Hk.
  { rewrite keys_setitem.
    assert (PyDict.contains k d = true) as ->; [|done].
    apply contains_keys, Hsub. by left. }
  rewrite IH; [done|]. intros k' Hk'. rewrite Hk. apply Hsub. by right.
Qed.
End PyDict_more.

(** ** Creating, updating and reading records *)

(** X1: after [create_instance(url, detail)], [get_instance] returns
    [detail] at [url] and what it returned before at every other URL. *)
Theorem create_instance_lookup self url detail url' :
  fst (create_instance url detail self) = Ok tt
  /\ get_instance url' (snd (create_instance url detail self))
     = (if String.eqb url' url then Ok detail
        else fst (get_instance url' self),
        snd (create_instance url detail self)).
Proof.
  split; [done|]. unfold get_instance, create_instance. simpl.
  destruct (String.eqb_spec url' url) as [->|Hne].
  - by rewrite get_setitem_eq.
  - rewrite get_setitem_ne by congruence.
    by destruct (PyDict.get url' (instances self)).
Qed.

(** X2: [create_instance] keeps the insertion order: a URL the store has
    keeps its place, a new URL goes last; creating twice at one URL is the
    same as creating the second record only. *)
Theorem create_instance_order self url detail detail' :
  PyDict.keys (instances (snd (create_instance url detail self)))
  = (if PyDict.contains url (instances self)
     then PyDict.keys (instances self)
     else (PyDict.keys (instances self) ++ [url])%list)
  /\ snd (create_instance url detail'
            (snd (create_instance url detail self)))
     = snd (create_instance url detail' self).
Proof.
  split.
  - apply keys_setitem.
  - unfold create_instance, set_instances. simpl.
    by rewrite setitem_setitem.
Qed.

(** X3: [update_instance(url, detail)] is a shallow merge: in the record
    then stored at [url] a key of [detail] has the value [detail] gives
    it, whatever it held before, and every other key has the value of the
    old record; a URL the store has keeps its place, and for a URL it does
    not have the call is [create_instance]. *)
Theorem update_instance_shallow self url detail :
  List.NoDup (PyDict.keys detail) ->
  (exists r,
     get_instance url (snd (update_instance url detail self))
     = (Ok r, snd (update_instance url detail self))
     /\ forall k,
          PyDict.get k r
          = match PyDict.get k detail with
            | Some v => Some v
            | None =>
                match PyDict.get url (instances self) with
                | Some old => PyDict.get k old
                | None => None
                end
            end)
  /\ (PyDict.contains url (instances self) = true ->
      PyDict.keys (instances (snd (update_instance url detail self)))
      = PyDict.keys (instances self))
  /\ (PyDict.contains url (instances self) = false ->
      update_instance url detail self = create_instance url detail self).
Proof.
  intros Hnd. unfold update_instance, create_instance, get_instance,
    PyDict.contains.
  destruct (PyDict.get url (instances self)) as [old|] eqn:Hold; simpl.
  - split; [|split; [|done]].
    + rewrite get_setitem_eq. eexists. split; [done|].
      intros k. by apply get_update.
    + intros _. rewrite keys_setitem. unfold PyDict.contains.
      by rewrite Hold.
  - split; [|split; [done|done]].
    rewrite get_setitem_eq. eexists. split; [done|].
    intros k. by destruct (PyDict.get k detail).
Qed.

(** X4: [update_instance] is idempotent: the same update applied twice
    leaves the store as after the first. *)
Theorem update_instance_idempotent self url detail :
  List.NoDup (PyDict.keys detail) ->
  snd (update_instance url detail (snd (update_instance url detail self)))
  = snd (update_instance url detail self).
Proof.
  intros Hnd. unfold update_instance.
  destruct (PyDict.get url (instances self)) as [old|] eqn:Hold; simpl;
    rewrite get_setitem_eq; unfold set_instances; simpl;
    rewrite setitem_setitem.
  - by rewrite update_idempotent.
  - by rewrite update_self.
Qed.

Lemma NoDup_keys_filter {V} (f : string * V -> bool) (d : list (string * V)) :
  List.NoDup (PyDict.keys d) -> List.NoDup (PyDict.keys (List.filter f d)).
Proof.
  unfold PyDict.keys. induction d as [|[k v] d IH]; simpl; [done|].
  intros Hnd. inversion Hnd as [|? ? Hk Hd]; subst.
  destruct (f (k, v)); simpl; [|by apply IH].
  constructor; [|by apply IH].
  intros Hin. apply Hk. apply in_map_iff in Hin as ([k' v'] & <- & Hin).
  apply filter_In in Hin as [Hin _]. by apply (in_map fst) in Hin.
Qed.

Lemma sublist_filter_bool {X} (f : X -> bool) (l : list X) :
  sublist (List.filter f l) l.
Proof.
  induction l as [|x l IH]; simpl; [constructor|].
  destruct (f x); by constructor.
Qed.

Section store_iteration_facts.
Context {NetworkType : Type} `{EqDecision NetworkType}.
Variable get_network_type : string -> NetworkType.
Implicit Types (self : SearxStatisticsResult) (detail : dict).
Implicit Types (network_type : @network_type_arg NetworkType).

(** X5: an update that carries an [error] key, whatever its value, makes
    the record at that URL invalid; in a store whose URLs are distinct the
    URL is then never yielded with [only_valid=True]. *)
Theorem update_instance_error self url detail :
  PyDict.contains "error" detail = true ->
  (exists r,
     get_instance url (snd (update_instance url detail self))
     = (Ok r, snd (update_instance url detail self))
     /\ PyDict.contains "error" r = true
     /\ _is_valid_instance r = false)
  /\ (List.NoDup (PyDict.keys (instances self)) ->
      forall d valid_or_private network_type,
        ~ In (url, d)
            (iter_instances get_network_type
               (snd (update_instance url detail self)) true
               valid_or_private network_type)).
Proof.
  intros He.
  assert (exists r,
            PyDict.get url (instances (snd (update_instance url detail self)))
            = Some r
            /\ PyDict.contains "error" r = true) as (r & Hr & Her).
  { unfold update_instance.
    destruct (PyDict.get url (instances self)) as [old|]; simpl;
      rewrite get_setitem_eq; eexists; (split; [done|]); [|done].
    apply contains_keys, In_keys_update. right. by apply contains_keys. }
  assert (_is_valid_instance r = false) as Hinv.
  { unfold _is_valid_instance. rewrite Her. apply andb_false_r. }
  split.
  - exists r. unfold get_instance. by rewrite Hr.
  - intros Hnd d vp nt [Hin Hy]%iter_instances_In.
    apply yields_only_valid in Hy.
    assert (List.NoDup
              (PyDict.keys (instances (snd (update_instance url detail self)))))
      as Hnd'.
    { unfold update_instance.
      destruct (PyDict.get url (instances self)); simpl;
        by apply NoDup_keys_setitem. }
    rewrite (get_NoDup_In url d _ Hnd' Hin) in Hr. congruence.
Qed.

(** X6: the URLs of the store stay distinct: they are in a fresh store,
    [create_instance] and [update_instance] keep them so, and then
    [iter_instances] yields no URL twice. *)
Theorem instances_unique_urls :
  (forall now private,
     List.NoDup (PyDict.keys (instances (init now private))))
  /\ (forall self url detail,
        List.NoDup (PyDict.keys (instances self)) ->
        List.NoDup
          (PyDict.keys (instances (snd (create_instance url detail self))))
        /\ List.NoDup
             (PyDict.keys
                (instances (snd (update_instance url detail self)))))
  /\ (forall self only_valid valid_or_private network_type,
        List.NoDup (PyDict.keys (instances self)) ->
        List.NoDup
          (PyDict.keys
             (iter_instances get_network_type self only_valid
                valid_or_private network_type))).
Proof.
  split; [|split].
  - intros now p. constructor.
  - intros self url detail Hnd. split.
    + by apply NoDup_keys_setitem.
    + unfold update_instance.
      destruct (PyDict.get url (instances self)); simpl;
        by apply NoDup_keys_setitem.
  - intros self ov vp nt Hnd. by apply NoDup_keys_filter.
Qed.

(** X7: [iter_instances] yields stored pairs only, in the order of the
    store and each stored pair at most once: its result is a subsequence
    of the items of [instances], so it is never longer and is empty for a
    store without instances. *)
Theorem iter_instances_sublist self only_valid valid_or_private network_type :
  sublist
    (iter_instances get_network_type self only_valid valid_or_private
       network_type)
    (instances self)
  /\ length (iter_instances get_network_type self only_valid
               valid_or_private network_type)
     <= length (instances self)
  /\ (instances self = [] ->
      iter_instances get_network_type self only_valid valid_or_private
        network_type = []).
Proof.
  assert (sublist
            (iter_instances get_network_type self only_valid
               valid_or_private network_type) (instances self)) as Hs
    by apply sublist_filter_bool.
  split; [done|]. split; [by apply sublist_length|].
  intros Hnil. rewrite Hnil in Hs. by apply sublist_nil_r.
Qed.

(** X8: with [only_valid=True] the value of [valid_or_private] makes no
    difference; and on a store that is not private, [valid_or_private=True]
    already yields the valid records only, so [only_valid] makes no
    difference there. *)
Theorem iter_instances_flags self network_type :
  (forall valid_or_private valid_or_private',
     iter_instances get_network_type self true valid_or_private
       network_type
     = iter_instances get_network_type self true valid_or_private'
         network_type)
  /\ (private self = false ->
      forall only_valid,
        iter_instances get_network_type self only_valid true network_type
        = iter_instances get_network_type self true true network_type).
Proof.
  split.
  - intros vp vp'. unfold iter_instances. apply filter_ext. intros [u d].
    unfold yields. simpl. destruct (_is_valid_instance d); simpl; [|done].
    by rewrite !andb_false_r.
  - intros Hp ov. unfold iter_instances. rewrite Hp.
    apply filter_ext. intros [u d]. unfold yields. simpl.
    destruct (_is_valid_instance d); simpl; [|by destruct ov].
    by rewrite !andb_false_r.
Qed.

Lemma yields_list private only_valid valid_or_private l u detail :
  yields get_network_type private only_valid valid_or_private
    (NetworkTypes l) u detail
  = yields get_network_type private only_valid valid_or_private
      AllNetworkTypes u detail
    && bool_decide (get_network_type u ∈ l).
Proof.
  unfold yields, network_type_in.
  destruct (only_valid && negb (_is_valid_instance detail)); [done|].
  destruct (valid_or_private && negb private
            && negb (_is_valid_instance detail)); [done|].
  by destruct (bool_decide _).
Qed.

(** X9: with a list as [network_type] the pairs yielded are those yielded
    for the default argument whose URL has a network type of the list; the
    empty list yields nothing. *)
Theorem iter_instances_network_list self only_valid valid_or_private l :
  iter_instances get_network_type self only_valid valid_or_private
    (NetworkTypeList l)
  = List.filter (fun ud => bool_decide (get_network_type (fst ud) ∈ l))
      (iter_instances get_network_type self only_valid valid_or_private
         NetworkTypeClass)
  /\ iter_instances get_network_type self only_valid valid_or_private
       (NetworkTypeList []) = [].
Proof.
  assert (forall l,
            iter_instances get_network_type self only_valid valid_or_private
              (NetworkTypeList l)
            = List.filter
                (fun ud => bool_decide (get_network_type (fst ud) ∈ l))
                (iter_instances get_network_type self only_valid
                   valid_or_private NetworkTypeClass)) as Hl.
  { intros l'. unfold iter_instances, PyDict.items.
    induction (instances self) as [|[u d] r IH]; [done|].
    cbn [List.filter fst snd rebind_network_type] in *.
    rewrite yields_list.
    destruct (yields _ _ _ _ AllNetworkTypes u d); cbn [andb List.filter fst];
      [|exact IH].
    destruct (bool_decide _); by rewrite IH. }
  split; [apply Hl|]. rewrite Hl. clear Hl.
  induction (iter_instances _ _ _ _ _) as [|[u d] r IH]; [done|].
  cbn [List.filter fst].
  by rewrite (bool_decide_eq_false_2 _ (not_elem_of_nil (get_network_type u))).
Qed.

Lemma yields_spec private only_valid valid_or_private network_type u
    detail :
  yields get_network_type private only_valid valid_or_private
    (rebind_network_type network_type) u detail = true
  <-> (only_valid = true -> _is_valid_instance detail = true)
      /\ (valid_or_private = true ->
          private = true \/ _is_valid_instance detail = true)
      /\ match network_type with
         | NetworkTypeClass => True
         | NetworkTypeMember t => get_network_type u = t
         | NetworkTypeList l => get_network_type u ∈ l
         end.
Proof.
  assert (network_type_in (get_network_type u)
            (rebind_network_type network_type) = true
          <-> match network_type with
              | NetworkTypeClass => True
              | NetworkTypeMember t => get_network_type u = t
              | NetworkTypeList l => get_network_type u ∈ l
              end) as Hn.
  { destruct network_type as [|t|l]; simpl; [done| |].
    - by rewrite bool_decide_eq_true, list_elem_of_singleton.
    - by rewrite bool_decide_eq_true. }
  rewrite <- Hn. unfold yields.
  destruct only_valid, valid_or_private, private,
    (_is_valid_instance detail),
    (network_type_in (get_network_type u)
       (rebind_network_type network_type)); simpl;
    intuition congruence.
Qed.

(** X10: a record just stored with [create_instance] is yielded exactly
    when it passes the three filters of the call: it is valid if
    [only_valid] is set; it is valid or the store is private if
    [valid_or_private] is set; and the network type of its URL is the
    member, or in the list, passed as [network_type] (any type passes for
    the default). *)
Theorem create_instance_yielded self url detail only_valid valid_or_private
    network_type :
  In (url, detail)
    (iter_instances get_network_type (snd (create_instance url detail self))
       only_valid valid_or_private network_type)
  <-> (only_valid = true -> _is_valid_instance detail = true)
      /\ (valid_or_private = true ->
          private self = true \/ _is_valid_instance detail = true)
      /\ match network_type with
         | NetworkTypeClass => True
         | NetworkTypeMember t => get_network_type url = t
         | NetworkTypeList l => get_network_type url ∈ l
         end.
Proof.
  rewrite iter_instances_In, <- yields_spec. simpl.
  split; [by intros [_ ?]|].
  intros Hy. split; [apply In_setitem|done].
Qed.
End store_iteration_facts.

(** * Further properties of the adapter, the snapshot and the factory *)

(** X11: [Fetcher] accepts functions only as entry points.  When the
    module's [initialize] is a function the initialize task is the task of
    that very function, called without arguments and without the exception
    wrapper; when the attribute is missing or bound to anything else the
    task is the no-op, which changes nothing and raises nothing, and a
    [fetch] attribute of that kind is treated like a missing one. *)
Theorem entry_points_functions_only {Loop Executor : Type}
    (print_exception_wrapper : pyobj -> pyobj)
    (create_task : Loop -> Executor -> pyobj -> list argument -> awaitable)
    (self : Fetcher) (loop : Loop) (executor : Executor)
    (searx_stats_result : argument) :
  (forall f,
     namespace (fetch_module self) !! "initialize" = Some (PyFunction f) ->
     create_initialize_task create_task self loop executor
     = create_task loop executor (PyFunction f) [])
  /\ ((forall f,
         namespace (fetch_module self) !! "initialize"
         <> Some (PyFunction f)) ->
      forall w,
        create_initialize_task create_task self loop executor w = (Ok tt, w))
  /\ ((forall f,
         namespace (fetch_module self) !! "fetch" <> Some (PyFunction f)) ->
      create_fetch_task print_exception_wrapper create_task self loop
        executor searx_stats_result
      = create_task loop executor (print_exception_wrapper PyNone)
          [searx_stats_result]).
Proof.
  unfold create_initialize_task, create_fetch_task. split; [|split].
  - intros f Hf%get_function_Some. by rewrite Hf.
  - intros Hf%get_function_None w. by rewrite Hf.
  - intros Hf%get_function_None. by rewrite Hf.
Qed.

Lemma get_map_values {V V'} (g : V -> V') k (d : list (string * V)) :
  PyDict.get k (map (fun kv => (fst kv, g (snd kv))) d)
  = g <$> PyDict.get k d.
Proof.
  induction d as [|[k' v'] d IH]; simpl; [done|].
  by destruct (String.eqb k k').
Qed.

(** X13: the snapshot [write] dumps holds, under [instances], every URL of
    the store in insertion order, bound to its record, and nothing else;
    in particular a record just created is in the next snapshot. *)
Theorem write_instances_lookup self output_file_name fs :
  exists out ivs,
    write self output_file_name fs !! output_file_name = Some out
    /\ PyDict.get "instances" out = Some (VDict ivs)
    /\ PyDict.keys ivs = PyDict.keys (instances self)
    /\ (forall url,
          PyDict.get url ivs = VDict <$> PyDict.get url (instances self))
    /\ (forall url detail,
          exists out' ivs',
            write (snd (create_instance url detail self)) output_file_name fs
              !! output_file_name = Some out'
            /\ PyDict.get "instances" out' = Some (VDict ivs')
            /\ PyDict.get url ivs' = Some (VDict detail)).
Proof.
  exists (searx_json self), (map (fun ud => (fst ud, VDict (snd ud)))
                               (instances self)).
  unfold write. rewrite lookup_insert_eq.
  split; [done|]. split; [done|]. split; [|split].
  - unfold PyDict.keys. rewrite map_map. by apply map_ext.
  - intros url. apply get_map_values.
  - intros url detail. eexists _, _. rewrite lookup_insert_eq.
    split; [done|]. split; [done|].
    rewrite get_map_values. simpl. by rewrite get_setitem_eq.
Qed.

(** ** The per-instance closure and the pass *)

(** A world made for a store shows that store. *)
Lemma world_of_store_view_from (l : list (string * dict)) :
  forall pre : list dict,
  map (fun ua => (fst ua, default [] ((pre ++ map snd l)%list !! snd ua)))
    (imap (fun i ud => (fst ud, length pre + i)) l)
  = l.
Proof.
  induction l as [|[u d] l IH]; intros pre; [done|].
  cbn [imap map fst snd]. f_equal.
  - rewrite Nat.add_0_r, list_lookup_middle by done. done.
  - etransitivity; [|apply (IH (pre ++ [d])%list)].
    rewrite <- app_assoc. cbn [app]. f_equal.
    apply imap_ext. intros i x _. cbn. rewrite length_app.
    cbn. f_equal. lia.
Qed.

Lemma store_world_of_store s : store (world_of_store s) = s.
Proof.
  unfold store, world_of_store, deref. simpl.
  pose proof (world_of_store_view_from (instances s) []) as Hv.
  simpl in Hv. rewrite Hv. by destruct s.
Qed.

Section closure_facts.
Variable keys : list string.
Variable probe : raw_fetch.

End closure_facts.

Lemma length_failures {X Y} (f : X -> result Y) (l : list X) :
  length (flat_map (fun x => failure (f x)) l) <= length l.
Proof.
  induction l as [|x l IH]; simpl; [done|].
  rewrite length_app. destruct (f x); simpl; lia.
Qed.

Lemma In_unique_object {X} (l : list (X * nat)) u u' a :
  List.NoDup (map snd l) -> In (u, a) l -> In (u', a) l -> u = u'.
Proof.
  induction l as [|[v b] l IH]; simpl; [done|].
  intros Hnd. inversion Hnd as [|? ? Hb Hl]; subst.
  intros [Heq|Hin] [Heq'|Hin'].
  - congruence.
  - injection Heq as -> ->. destruct Hb. by apply (in_map snd) in Hin'.
  - injection Heq' as -> ->. destruct Hb. by apply (in_map snd) in Hin.
  - by apply IH.
Qed.

Section pass_frame.
Variable keys : list string.
Variable probe : raw_fetch.
Hypothesis probe_pure : forall url w, snd (fetch_one probe url w) = w.

(** Invocations made one after the other, by a probe function that leaves
    the world alone: only the record objects handed over may change, and
    the console gains the exceptions of the failed invocations. *)
Lemma replay_frame xs : forall w outcomes w1,
  foreach.replay (fetch_and_set_function keys probe) log_instance_failure
    xs w = (outcomes, w1) ->
  instance_ids w1 = instance_ids w
  /\ store_fields w1 = store_fields w
  /\ length (objects w1) = length (objects w)
  /\ (forall a, ~ In a (map snd xs) -> objects w1 !! a = objects w !! a)
  /\ stdout w1
     = (stdout w ++ flat_map (fun xr => failure (snd xr)) outcomes)%list
  /\ map fst outcomes = xs.
Proof using probe_pure.
  induction xs as [|[u a] xs IH]; intros w outcomes w1; simpl.
  - intros [= <- <-]. rewrite app_nil_r. by repeat split.
  - unfold fetch_and_set_function at 1, bind. simpl.
    pose proof (probe_pure u w) as Hw.
    destruct (fetch_one probe u w) as [[result|e] w']; simpl in Hw;
      subst w'; simpl.
    + destruct (foreach.replay _ _ xs _) as [outs w2] eqn:Hrep.
      intros [= <- <-].
      destruct (IH _ _ _ Hrep) as (Hi & Hf & Hl & Ho & Hs & Hm).
      simpl in *. rewrite length_alter in Hl.
      split; [done|]. split; [done|]. split; [done|]. split.
      * intros b Hb. rewrite Ho by tauto.
        apply list_lookup_alter_ne. intros ->. tauto.
      * split; [done|]. by rewrite Hm.
    + destruct (foreach.replay _ _ xs _) as [outs w2] eqn:Hrep.
      intros [= <- <-].
      destruct (IH _ _ _ Hrep) as (Hi & Hf & Hl & Ho & Hs & Hm).
      simpl in *.
      split; [done|]. split; [done|]. split; [done|]. split.
      * intros b Hb. apply Ho. tauto.
      * split; [by rewrite Hs, <- app_assoc|]. by rewrite Hm.
Qed.
End pass_frame.

Section pass_facts.
Context {NetworkType : Type} `{EqDecision NetworkType}.
Variable get_network_type : string -> NetworkType.
Variable keys : list string.
Variable probe : raw_fetch.
Variables only_valid valid_or_private : bool.
Variable network_type : @network_type_arg NetworkType.
Variable limit : nat.
Variable pick : @foreach.state (string * nat) world -> nat.

(** With a positive limit, the world after [fetch] is the world after the
    invocations of the closure, one after the other, on the yielded
    instances in some order. *)
Lemma fetch_replay w0 :
  0 < limit ->
  exists order outcomes,
    Permutation order
      (iter_objects get_network_type only_valid valid_or_private
         network_type w0)
    /\ foreach.replay (fetch_and_set_function keys probe)
         log_instance_failure order w0
       = (outcomes,
          snd (fetch get_network_type keys probe only_valid valid_or_private
                 network_type limit pick w0)).
Proof.
  intros Hpos. unfold fetch. cbn [snd].
  assert (foreach.shared
            (foreach.for_each
               (if iscoroutinefunction probe
                then fetch_and_set_async keys probe
                else fetch_and_set_function keys probe)
               log_instance_failure limit pick
               (iter_objects get_network_type only_valid valid_or_private
                  network_type w0) w0)
          = foreach.shared
              (foreach.for_each (fetch_and_set_function keys probe)
                 log_instance_failure limit pick
                 (iter_objects get_network_type only_valid valid_or_private
                    network_type w0) w0)) as ->
    by (by destruct (iscoroutinefunction probe)).
  destruct (for_each_replay (fetch_and_set_function keys probe)
              log_instance_failure limit pick
              (iter_objects get_network_type only_valid valid_or_private
                 network_type w0) w0 Hpos) as (order & Hperm & Hrep).
  eauto.
Qed.

(** X15: a pass of [fetch] with a positive limit and a probe function
    that leaves the world alone (it only computes a result or raises)
    changes nothing but the record objects it was handed and the console:
    the URLs of the store and their order, the other fields of the store
    and every record object that [iter_instances] did not yield are as
    before, no object is added, and the console gains at most one line
    for each yielded instance, after what it held.  The driver is the one
    modelled from the contract of [for_each]; the statement holds for
    every scheduling policy. *)
Theorem fetch_changes_yielded_records_only w0 :
  0 < limit ->
  (forall url w, snd (fetch_one probe url w) = w) ->
  let w1 :=
    snd (fetch get_network_type keys probe only_valid valid_or_private
           network_type limit pick w0) in
  instance_ids w1 = instance_ids w0
  /\ store_fields w1 = store_fields w0
  /\ PyDict.keys (instances (store w1)) = PyDict.keys (instances (store w0))
  /\ length (objects w1) = length (objects w0)
  /\ (forall a,
        ~ In a (map snd
                  (iter_objects get_network_type only_valid valid_or_private
                     network_type w0)) ->
        objects w1 !! a = objects w0 !! a)
  /\ exists lines,
       stdout w1 = (stdout w0 ++ lines)%list
       /\ length lines
          <= length (iter_instances get_network_type (store w0) only_valid
                       valid_or_private network_type).
Proof.
  intros Hpos Hpure w1.
  destruct (fetch_replay w0 Hpos) as (order & outcomes & Hperm & Hrep).
  fold w1 in Hrep.
  destruct (replay_frame keys probe Hpure order w0 outcomes w1 Hrep)
    as (Hi & Hf & Hl & Ho & Hs & Hm).
  split; [done|]. split; [done|]. split.
  { unfold store, PyDict.keys. simpl. rewrite Hi, !map_map. done. }
  split; [done|]. split.
  - intros a Ha. apply Ho. intros Hin. apply Ha.
    apply (Permutation_in _ (Permutation_map snd Hperm) Hin).
  - eexists. split; [exact Hs|].
    rewrite <- iter_objects_view, length_map, <- (Permutation_length Hperm).
    rewrite <- Hm, length_map.
    apply (length_failures snd).
Qed.
End pass_facts.

Section pass_records.
Variable keys : list string.
Variable probe : raw_fetch.
Variable outcome : string -> result value.
Hypothesis probe_outcome :
  forall url w, fetch_one probe url w = (outcome url, w).

Lemma probe_outcome_pure url w : snd (fetch_one probe url w) = w.
Proof using probe_outcome. by rewrite probe_outcome. Qed.

(** Invocations made one after the other on distinct record objects: each
    object is merged with the result for its URL, and the console gains
    the exceptions in the order of the invocations. *)
Lemma replay_records xs : forall w outcomes w1,
  foreach.replay (fetch_and_set_function keys probe) log_instance_failure
    xs w = (outcomes, w1) ->
  List.NoDup (map snd xs) ->
  (forall u a, In (u, a) xs ->
     objects w1 !! a = merged_record keys (outcome u) <$> objects w !! a)
  /\ stdout w1
     = (stdout w ++ flat_map (fun ud => failure (outcome (fst ud))) xs)%list.
Proof using probe_outcome.
  induction xs as [|[u a] xs IH]; intros w outcomes w1; simpl.
  - intros [= <- <-] _. rewrite app_nil_r. by split.
  - unfold fetch_and_set_function at 1, bind. simpl.
    rewrite probe_outcome. intros Hrep Hnd.
    inversion Hnd as [|? ? Ha Hxs]; subst.
    destruct (outcome u) as [result|e] eqn:Hout; simpl in Hrep.
    + destruct (foreach.replay _ _ xs _) as [outs w2] eqn:Hrep2.
      injection Hrep as <- <-.
      destruct (replay_frame keys probe probe_outcome_pure xs _ _ _ Hrep2)
        as (_ & _ & _ & Ho & _).
      destruct (IH _ _ _ Hrep2 Hxs) as [Hrec Hs]. simpl in *.
      split; [|done].
      intros u' a' [[= <- <-]|Hin].
      * rewrite Ho by done. rewrite Hout. apply list_lookup_alter_eq.
      * rewrite (Hrec _ _ Hin). f_equal.
        apply list_lookup_alter_ne. intros ->. apply Ha.
        by apply (in_map snd) in Hin.
    + destruct (foreach.replay _ _ xs _) as [outs w2] eqn:Hrep2.
      injection Hrep as <- <-.
      destruct (replay_frame keys probe probe_outcome_pure xs _ _ _ Hrep2)
        as (_ & _ & _ & Ho & _).
      destruct (IH _ _ _ Hrep2 Hxs) as [Hrec Hs]. simpl in *.
      split; [|by rewrite Hs, <- app_assoc].
      intros u' a' [[= <- <-]|Hin].
      * rewrite Ho by done. rewrite Hout. simpl.
        by destruct (objects w !! a).
      * by apply Hrec.
Qed.
End pass_records.

Section pass_result.
Context {NetworkType : Type} `{EqDecision NetworkType}.
Variable get_network_type : string -> NetworkType.
Variable keys : list string.
Variable probe : raw_fetch.
Variable outcome : string -> result value.
Hypothesis probe_outcome :
  forall url w, fetch_one probe url w = (outcome url, w).

(** X19: what a pass of [fetch] computes.  For a probe function whose
    outcome depends on the URL alone and that leaves the world alone, a
    positive limit, and a store whose records are distinct objects: after
    the pass the record of every instance [iter_instances] yielded is its
    [dict_update] with the result of the probe function for its URL, or is
    as it was when the probe function raised for that URL; every other
    record object is as it was; the URLs and the other fields of the store
    are unchanged; the console has gained the exceptions of the yielded
    instances whose probe raised, in some order.  So the store after the
    pass has, under every URL, the record so computed, whatever the
    scheduling policy and the limit.  The driver is the one modelled from
    the contract of [for_each]. *)
Theorem fetch_merges_results only_valid valid_or_private
    (network_type : @network_type_arg NetworkType) limit pick w0 :
  0 < limit ->
  List.NoDup (map snd (instance_ids w0)) ->
  let yielded :=
    iter_objects get_network_type only_valid valid_or_private network_type
      w0 in
  let w1 :=
    snd (fetch get_network_type keys probe only_valid valid_or_private
           network_type limit pick w0) in
  (forall u a, In (u, a) yielded ->
     objects w1 !! a = merged_record keys (outcome u) <$> objects w0 !! a)
  /\ (forall a, ~ In a (map snd yielded) ->
        objects w1 !! a = objects w0 !! a)
  /\ instance_ids w1 = instance_ids w0
  /\ store_fields w1 = store_fields w0
  /\ length (objects w1) = length (objects w0)
  /\ (exists lines,
        stdout w1 = (stdout w0 ++ lines)%list
        /\ Permutation lines
             (flat_map (fun ud => failure (outcome (fst ud))) yielded))
  /\ (Forall (fun ua => snd ua < length (objects w0)) (instance_ids w0) ->
      instances (store w1)
      = map (fun ua =>
               (fst ua,
                if bool_decide (ua ∈ yielded)
                then merged_record keys (outcome (fst ua))
                       (deref w0 (snd ua))
                else deref w0 (snd ua)))
          (instance_ids w0)).
Proof using probe_outcome.
  intros Hpos Hnd yielded w1.
  assert (forall ua, In ua yielded -> In ua (instance_ids w0)) as Hsub.
  { intros ua Hin. by apply filter_In in Hin as [Hin _]. }
  assert (List.NoDup (map snd yielded)) as Hndy.
  { apply NoDup_ListNoDup. apply NoDup_ListNoDup in Hnd.
    refine (sublist_NoDup _ _ Hnd _).
    apply (fmap_sublist snd), sublist_filter_bool. }
  destruct (fetch_replay get_network_type keys probe only_valid
              valid_or_private network_type limit pick w0 Hpos)
    as (order & outcomes & Hperm & Hrep).
  fold w1 in Hrep. fold yielded in Hperm.
  assert (List.NoDup (map snd order)) as Hndo.
  { eapply Permutation_NoDup; [|exact Hndy].
    apply Permutation_map. by symmetry. }
  destruct (replay_frame keys probe
              (probe_outcome_pure probe outcome probe_outcome) order w0
              outcomes w1 Hrep) as (Hi & Hf & Hl & Ho & _ & _).
  destruct (replay_records keys probe outcome probe_outcome order w0
              outcomes w1 Hrep Hndo) as [Hrec Hs].
  assert (forall u a, In (u, a) yielded ->
            objects w1 !! a
            = merged_record keys (outcome u) <$> objects w0 !! a) as Hy.
  { intros u a Hin. apply Hrec.
    apply (Permutation_in _ (Permutation_sym Hperm) Hin). }
  assert (forall a, ~ In a (map snd yielded) ->
            objects w1 !! a = objects w0 !! a) as Hn.
  { intros a Ha. apply Ho. intros Hin. apply Ha.
    apply (Permutation_in _ (Permutation_map snd Hperm) Hin). }
  split; [done|]. split; [done|]. split; [done|]. split; [done|].
  split; [done|]. split.
  - eexists. split; [exact Hs|]. by rewrite Hperm.
  - intros Hvalid. unfold store. simpl. rewrite Hi.
    apply map_ext_in. intros [u a] Hin. simpl. f_equal.
    rewrite Forall_forall in Hvalid.
    destruct (lookup_lt_is_Some_2 (objects w0) a) as [d Hd].
    { apply (Hvalid (u, a)). by apply list_elem_of_In. }
    unfold deref. case_bool_decide as Hyield.
    + apply list_elem_of_In in Hyield.
      rewrite (Hy u a Hyield), Hd. done.
    + rewrite Hn; [done|]. intros Ha.
      apply in_map_iff in Ha as ([u' a'] & Heq & Hin'). simpl in Heq.
      subst a'. apply Hyield, list_elem_of_In.
      by rewrite (In_unique_object _ u u' a Hnd Hin (Hsub _ Hin')).
Qed.
End pass_result.

(** ** Validity under updates *)

Lemma update_instance_record self url detail :
  List.NoDup (PyDict.keys detail) ->
  exists r,
    get_instance url (snd (update_instance url detail self))
    = (Ok r, snd (update_instance url detail self))
    /\ forall k,
         PyDict.get k r
         = match PyDict.get k detail with
           | Some v => Some v
           | None =>
               match PyDict.get url (instances self) with
               | Some old => PyDict.get k old
               | None => None
               end
           end.
Proof.
  intros Hnd. unfold update_instance, get_instance.
  destruct (PyDict.get url (instances self)) as [old|]; simpl;
    rewrite get_setitem_eq; eexists; (split; [done|]); intros k.
  - by apply get_update.
  - by destruct (PyDict.get k detail).
Qed.

(** X17: [update_instance] never removes a key, so an error once recorded
    stays: whatever the update, a record that has an [error] key has one
    afterwards and is still invalid. *)
Theorem update_instance_error_persists self url detail old :
  PyDict.get url (instances self) = Some old ->
  PyDict.contains "error" old = true ->
  exists r,
    get_instance url (snd (update_instance url detail self))
    = (Ok r, snd (update_instance url detail self))
    /\ (forall k, In k (PyDict.keys old) -> In k (PyDict.keys r))
    /\ PyDict.contains "error" r = true
    /\ _is_valid_instance r = false.
Proof.
  intros Hold He. unfold update_instance, get_instance. rewrite Hold.
  simpl. rewrite get_setitem_eq. eexists. split; [done|].
  assert (forall k, In k (PyDict.keys old) ->
            In k (PyDict.keys (PyDict.update old detail))) as Hkeys.
  { intros k Hk. apply In_keys_update. by left. }
  split; [done|].
  assert (PyDict.contains "error" (PyDict.update old detail) = true) as Her.
  { by apply contains_keys, Hkeys, contains_keys. }
  split; [done|]. unfold _is_valid_instance. rewrite Her.
  apply andb_false_r.
Qed.

(** X18: an update that is itself a valid record (a [version] that is not
    [None], no [error]) makes the record at its URL valid, provided the
    record held there, if any, has no [error] key. *)
Theorem update_instance_makes_valid self url detail :
  List.NoDup (PyDict.keys detail) ->
  _is_valid_instance detail = true ->
  (forall old, PyDict.get url (instances self) = Some old ->
               PyDict.contains "error" old = false) ->
  exists r,
    get_instance url (snd (update_instance url detail self))
    = (Ok r, snd (update_instance url detail self))
    /\ PyDict.get "version" r = PyDict.get "version" detail
    /\ _is_valid_instance r = true.
Proof.
  intros Hnd Hvalid Hold.
  destruct (update_instance_record self url detail Hnd)
    as (r & Hr & Hget).
  exists r. split; [done|].
  apply is_valid_instance_spec in Hvalid as ((v & Hv & Hvn) & He).
  assert (PyDict.get "version" r = Some v) as Hrv.
  { by rewrite Hget, Hv. }
  split; [by rewrite Hv|].
  apply is_valid_instance_spec. split; [by exists v|].
  rewrite Hget, He.
  destruct (PyDict.get url (instances self)) as [old|]; [|done].
  specialize (Hold old eq_refl). unfold PyDict.contains in Hold.
  by destruct (PyDict.get "error" old).
Qed.

(** * Worked examples, continued *)

Lemma update_instance_shallow_witness :
  List.NoDup (PyDict.keys version_update)
  /\ get_instance "https://a.example"
       (snd (update_instance "https://a.example" version_update
               (sample_store false)))
     = (Ok [("version", VStr "1.1")],
        snd (update_instance "https://a.example" version_update
               (sample_store false)))
  /\ PyDict.keys
       (instances
          (snd (update_instance "https://a.example" version_update
                  (sample_store false))))
     = PyDict.keys (instances (sample_store false)).
Proof.
  assert (List.NoDup (PyDict.keys version_update)) as Hnd
    by (apply nodup_keys_NoDup; reflexivity).
  destruct (update_instance_shallow (sample_store false) "https://a.example"
              version_update Hnd) as (_ & Hkeys & _).
  split; [exact Hnd|]. split; [reflexivity|].
  apply Hkeys. reflexivity.
Defined.

Lemma update_instance_idempotent_witness :
  List.NoDup (PyDict.keys error_update)
  /\ snd (update_instance "https://c.example" error_update
            (snd (update_instance "https://c.example" error_update
                    (sample_store false))))
     = snd (update_instance "https://c.example" error_update
              (sample_store false)).
Proof.
  assert (List.NoDup (PyDict.keys error_update)) as Hnd
    by (apply nodup_keys_NoDup; reflexivity).
  split; [exact Hnd|].
  exact (update_instance_idempotent (sample_store false) "https://c.example"
           error_update Hnd).
Defined.

Lemma update_instance_error_witness :
  PyDict.contains "error" error_update = true
  /\ List.NoDup (PyDict.keys (instances (sample_store false)))
  /\ ~ In ("https://a.example",
           [("version", VStr "1.0"); ("error", VNone); ("http", VDict [])])
         (iter_instances sample_get_network_type
            (snd (update_instance "https://a.example" error_update
                    (sample_store false)))
            true true NetworkTypeClass).
Proof.
  assert (PyDict.contains "error" error_update = true) as He by reflexivity.
  assert (List.NoDup (PyDict.keys (instances (sample_store false)))) as Hnd
    by (apply nodup_keys_NoDup; reflexivity).
  split; [exact He|]. split; [exact Hnd|].
  exact (proj2 (update_instance_error sample_get_network_type
                  (sample_store false) "https://a.example" error_update He)
           Hnd _ true NetworkTypeClass).
Defined.

Lemma instances_unique_urls_witness :
  List.NoDup (PyDict.keys (instances (sample_store true)))
  /\ List.NoDup
       (PyDict.keys
          (instances
             (snd (create_instance "https://d.example" pending_record
                     (sample_store true)))))
  /\ List.NoDup
       (PyDict.keys
          (iter_instances sample_get_network_type (sample_store true) false
             true NetworkTypeClass)).
Proof.
  assert (List.NoDup (PyDict.keys (instances (sample_store true)))) as Hnd
    by (apply nodup_keys_NoDup; reflexivity).
  destruct (instances_unique_urls sample_get_network_type)
    as (_ & Hstep & Hiter).
  split; [exact Hnd|]. split.
  - exact (proj1 (Hstep (sample_store true) "https://d.example"
                    pending_record Hnd)).
  - exact (Hiter (sample_store true) false true NetworkTypeClass Hnd).
Defined.

Lemma iter_instances_sublist_witness :
  instances (init 0 true) = []
  /\ iter_instances sample_get_network_type (init 0 true) false false
       NetworkTypeClass = [].
Proof.
  split; [reflexivity|].
  apply (iter_instances_sublist sample_get_network_type (init 0 true)).
  reflexivity.
Defined.

Lemma iter_instances_flags_witness :
  private (sample_store false) = false
  /\ iter_instances sample_get_network_type (sample_store false) false true
       (NetworkTypeMember NORMAL)
     = iter_instances sample_get_network_type (sample_store false) true true
         (NetworkTypeMember NORMAL).
Proof.
  split; [reflexivity|].
  apply (iter_instances_flags sample_get_network_type (sample_store false)).
  reflexivity.
Defined.

Lemma entry_points_functions_only_witness :
  namespace (fetch_module (sample_fetcher raising_module)) !! "initialize"
  = Some (PyFunction failing_fetch)
  /\ create_initialize_task (Loop:=unit) (Executor:=unit) utils.create_task
       (sample_fetcher raising_module) tt tt
     = utils.create_task tt tt (PyFunction failing_fetch) []
  /\ (forall f,
        namespace (fetch_module (sample_fetcher constant_module))
          !! "initialize" <> Some (PyFunction f))
  /\ (forall w,
        create_initialize_task (Loop:=unit) (Executor:=unit)
          utils.create_task (sample_fetcher constant_module) tt tt w
        = (Ok tt, w)).
Proof.
  assert (namespace (fetch_module (sample_fetcher raising_module))
            !! "initialize" = Some (PyFunction failing_fetch)) as Hf
    by (vm_compute; reflexivity).
  assert (forall f,
            namespace (fetch_module (sample_fetcher constant_module))
              !! "initialize" <> Some (PyFunction f)) as Hc.
  { intros f. vm_compute. intros H. discriminate H. }
  split; [exact Hf|]. split; [|split; [exact Hc|]].
  - exact (proj1 (entry_points_functions_only utils.print_exception_wrapper
                    utils.create_task (sample_fetcher raising_module) tt tt
                    ArgStore) failing_fetch Hf).
  - exact (proj1 (proj2
             (entry_points_functions_only utils.print_exception_wrapper
                utils.create_task (sample_fetcher constant_module) tt tt
                ArgStore)) Hc).
Defined.

Lemma update_instance_error_persists_witness :
  PyDict.get "https://b.example" (instances (sample_store false))
  = Some invalid_record
  /\ PyDict.contains "error" invalid_record = true
  /\ exists r,
       get_instance "https://b.example"
         (snd (update_instance "https://b.example" version_update
                 (sample_store false)))
       = (Ok r,
          snd (update_instance "https://b.example" version_update
                 (sample_store false)))
       /\ _is_valid_instance r = false.
Proof.
  assert (PyDict.get "https://b.example" (instances (sample_store false))
          = Some invalid_record) as Hold by reflexivity.
  assert (PyDict.contains "error" invalid_record = true) as He
    by reflexivity.
  split; [exact Hold|]. split; [exact He|].
  destruct (update_instance_error_persists (sample_store false)
              "https://b.example" version_update invalid_record Hold He)
    as (r & Hr & _ & _ & Hinv).
  exists r. split; [exact Hr|exact Hinv].
Defined.

Lemma update_instance_makes_valid_witness :
  List.NoDup (PyDict.keys version_update)
  /\ _is_valid_instance version_update = true
  /\ PyDict.get "https://c.example" (instances (sample_store false))
     = Some pending_record
  /\ PyDict.contains "error" pending_record = false
  /\ exists r,
       get_instance "https://c.example"
         (snd (update_instance "https://c.example" version_update
                 (sample_store false)))
       = (Ok r,
          snd (update_instance "https://c.example" version_update
                 (sample_store false)))
       /\ _is_valid_instance r = true.
Proof.
  assert (List.NoDup (PyDict.keys version_update)) as Hnd
    by (apply nodup_keys_NoDup; reflexivity).
  assert (_is_valid_instance version_update = true) as Hv by reflexivity.
  assert (forall old,
            PyDict.get "https://c.example" (instances (sample_store false))
            = Some old -> PyDict.contains "error" old = false) as Hold.
  { intros old H. vm_compute in H. injection H as <-. reflexivity. }
  split; [exact Hnd|]. split; [exact Hv|]. split; [reflexivity|].
  split; [reflexivity|].
  destruct (update_instance_makes_valid (sample_store false)
              "https://c.example" version_update Hnd Hv Hold)
    as (r & Hr & _ & Hvalid).
  exists r. split; [exact Hr|exact Hvalid].
Defined.


Lemma fetch_changes_yielded_records_only_witness :
  let w0 := world_of_store (sample_store false) in
  0 < 2
  /\ (forall url w, snd (fetch_one sample_probe url w) = w)
  /\ objects
       (snd (fetch sample_get_network_type ["http"] sample_probe true true
               NetworkTypeClass 2 (fun _ => 0) w0)) !! 1
     = Some invalid_record.
Proof.
  intros w0.
  assert (0 < 2) as Hpos by lia.
  assert (forall url w, snd (fetch_one sample_probe url w) = w) as Hpure.
  { intros url w. simpl.
    destruct (String.eqb url "https://b.example"); reflexivity. }
  split; [exact Hpos|]. split; [exact Hpure|].
  destruct (fetch_changes_yielded_records_only sample_get_network_type
              ["http"] sample_probe true true NetworkTypeClass 2
              (fun _ => 0) w0 Hpos Hpure) as (_ & _ & _ & _ & Hother & _).
  rewrite Hother; [reflexivity|].
  vm_compute. intros [H|[]]. discriminate H.
Defined.

Lemma fetch_merges_results_witness :
  let w0 := world_of_store (sample_store true) in
  (forall url w, fetch_one sample_probe url w = (sample_outcome url, w))
  /\ 0 < 2
  /\ List.NoDup (map snd (instance_ids w0))
  /\ Forall (fun ua => snd ua < length (objects w0)) (instance_ids w0)
  /\ instances
       (store
          (snd (fetch sample_get_network_type ["http"] sample_probe false
                  true NetworkTypeClass 2 (fun _ => 1) w0)))
     = [("https://a.example",
         [("version", VStr "1.0");
          ("http", VDict [("status_code", VNum 200)])]);
        ("https://b.example", [("error", VStr "timeout")]);
        ("https://c.example", [("http", VDict [("status_code", VNum 200)])])].
Proof.
  intros w0.
  assert (forall url w,
            fetch_one sample_probe url w = (sample_outcome url, w)) as Hout.
  { intros url w. unfold sample_outcome. simpl.
    destruct (String.eqb url "https://b.example"); reflexivity. }
  assert (0 < 2) as Hpos by lia.
  assert (List.NoDup (map snd (instance_ids w0))) as Hnd.
  { simpl. repeat constructor; simpl; lia. }
  assert (Forall (fun ua => snd ua < length (objects w0)) (instance_ids w0))
    as Hvalid.
  { simpl. repeat constructor; simpl; lia. }
  split; [exact Hout|]. split; [exact Hpos|]. split; [exact Hnd|].
  split; [exact Hvalid|].
  destruct (fetch_merges_results sample_get_network_type ["http"]
              sample_probe sample_outcome Hout false true NetworkTypeClass 2
              (fun _ => 1) w0 Hpos Hnd)
    as (_ & _ & _ & _ & _ & _ & Hview).
  rewrite (Hview Hvalid). reflexivity.
Defined.
